(** * ai-news-briefing: a shallow embedding of the pipeline in Rocq

    The Python program fetches news items ([src/aggregator.py]), has them
    summarised ([src/summarizer.py]), renders a report
    ([src/pdf_generator.py]) and mails it ([src/email_sender.py]);
    [main.py] chains the four steps.

    Python strings are modelled as Rocq [string]s holding their UTF-8
    encoding; [len] and slicing count code points, i.e. the bytes that are
    not UTF-8 continuation bytes ([py_len], [py_take]).  [str.strip] and the
    whitespace of [re] patterns work on code points ([cps]) and accept every
    code point for which [str.isspace] holds.  [str.lower], which follows
    the Unicode case tables, is a parameter of the code that uses it. *)

From Stdlib Require Import String Ascii Bool Arith Lia ZArith QArith DecimalString List.
Import ListNotations.
Open Scope nat_scope.


(** ** Python string primitives *)

Module PyStr.
Local Open Scope nat_scope.

(** A UTF-8 continuation byte (0b10xxxxxx) does not start a code point. *)
Definition is_cont (c : ascii) : bool :=
  let n := nat_of_ascii c in (128 <=? n) && (n <? 192).

(** [len(s)]: the number of code points. *)
Fixpoint py_len (s : string) : nat :=
  match s with
  | EmptyString => 0
  | String c r => (if is_cont c then 0 else 1) + py_len r
  end.

(** [s[:n]]: the first [n] code points. *)
Fixpoint py_take (n : nat) (s : string) : string :=
  match s with
  | EmptyString => EmptyString
  | String c r =>
      if is_cont c then String c (py_take n r)
      else match n with
           | O => EmptyString
           | S m => String c (py_take m r)
           end
  end.

(** The string whose bytes are [ns]. *)
Definition bytes (ns : list nat) : string :=
  fold_right (fun n s => String (ascii_of_nat n) s) EmptyString ns.

(** The code points of [s], each as the string of its UTF-8 bytes: every
    byte that is not a continuation byte starts a new code point. *)
Fixpoint cps (s : string) : list string :=
  match s with
  | EmptyString => []
  | String c r =>
      match cps r with
      | (String d _ as x) :: xs =>
          if is_cont d then String c x :: xs else String c EmptyString :: x :: xs
      | xs => String c EmptyString :: xs
      end
  end.

(** [''.join(parts)] *)
Definition cat (l : list string) : string := fold_right append EmptyString l.

(** The shape of the lists [cps] returns, for the proofs: every byte of a
    code point but the first is a continuation byte, and every code point
    but the first one of the string starts with a byte that is not. *)
Fixpoint all_cont (s : string) : bool :=
  match s with
  | EmptyString => true
  | String c r => is_cont c && all_cont r
  end.

Definition cp_ok (x : string) : bool :=
  match x with
  | EmptyString => false
  | String c r => negb (is_cont c) && all_cont r
  end.

Definition cps_wf (l : list string) : bool :=
  match l with
  | [] => true
  | EmptyString :: _ => false
  | String _ r :: xs => all_cont r && forallb cp_ok xs
  end.

(** The UTF-8 encodings of the code points for which [str.isspace] holds
    (the same set as [\s] in a [re] pattern over [str]): U+0009..U+000D,
    U+001C..U+0020, U+0085, U+00A0, U+1680, U+2000..U+200A, U+2028, U+2029,
    U+202F, U+205F and U+3000. *)
Definition isspace_cps : list string :=
  map (fun n => bytes [n]) [9; 10; 11; 12; 13; 28; 29; 30; 31; 32] ++
  [bytes [194; 133]; bytes [194; 160]; bytes [225; 154; 128]] ++
  map (fun n => bytes [226; 128; n]) [128; 129; 130; 131; 132; 133; 134; 135; 136; 137; 138] ++
  [bytes [226; 128; 168]; bytes [226; 128; 169]; bytes [226; 128; 175];
   bytes [226; 129; 159]; bytes [227; 128; 128]].

(** [cp.isspace()] for one code point. *)
Definition is_ws_cp (x : string) : bool := existsb (String.eqb x) isspace_cps.

(** Drops the leading whitespace code points. *)
Fixpoint drop_ws (l : list string) : list string :=
  match l with
  | [] => []
  | x :: r => if is_ws_cp x then drop_ws r else l
  end.

(** [s.lstrip()] *)
Definition lstrip (s : string) : string := cat (drop_ws (cps s)).

(** [s.rstrip()] *)
Definition rstrip (s : string) : string := cat (rev (drop_ws (rev (cps s)))).

(** [s.strip()] *)
Definition strip (s : string) : string := rstrip (lstrip s).

(** [str.lower] maps code points by the Unicode case tables and depends on
    the context (a final capital sigma), so the code that lower-cases is
    parametrised by it.  On a string whose characters are all ASCII it is
    the map below, which the counterexamples use. *)
Definition lower_char (c : ascii) : ascii :=
  let n := nat_of_ascii c in
  if (65 <=? n) && (n <=? 90) then ascii_of_nat (n + 32) else c.

(** [s.lower()] for an all-ASCII [s]. *)
Fixpoint ascii_lower (s : string) : string :=
  match s with
  | EmptyString => EmptyString
  | String c r => String (lower_char c) (ascii_lower r)
  end.

(** Truthiness of a Python [str]. *)
Definition truthy (s : string) : bool :=
  match s with EmptyString => false | _ => true end.

End PyStr.
Import PyStr.

(** ** News items (the dicts built by the fetchers) *)

Record item := mk_item {
  title : string;
  url : string;
  summary : string;
  published : string;
  source : string
}.

(** ** Aggregator ([src/aggregator.py]) *)

Module Aggregator.

(** What one call [fetcher(max_age_days=...)] did: returned a list or raised. *)
Inductive fetch_outcome :=
| Fetched (items : list item)
| FetchRaised.

Section Dedup.

(** [str.lower] *)
Variable lower : string -> string.

(** [item["title"].lower().strip()] *)
Definition title_key (it : item) : string := strip (lower (title it)).

(** The two locals threaded through the loop of [aggregate_news]. *)
Record agg_state := mk_agg {
  seen_titles : list string;
  all_items : list item
}.

Definition agg_init : agg_state := mk_agg [] [].

(** [for item in items: ...] for one fetcher's result. *)
Fixpoint add_items (st : agg_state) (items : list item) : agg_state :=
  match items with
  | [] => st
  | it :: rest =>
      let k := title_key it in
      if truthy k && negb (existsb (String.eqb k) (seen_titles st))
      then add_items (mk_agg (k :: seen_titles st) (all_items st ++ [it])) rest
      else add_items st rest
  end.

(** One iteration of [for fetcher in fetchers]: a fetcher that raised is
    logged and contributes nothing. *)
Definition step_fetcher (st : agg_state) (o : fetch_outcome) : agg_state :=
  match o with
  | Fetched items => add_items st items
  | FetchRaised => st
  end.

(** The body of [aggregate_news], given what each fetcher did, in the order of
    the [fetchers] list. *)
Definition aggregate_news_from (outs : list fetch_outcome) : list item :=
  all_items (fold_left step_fetcher outs agg_init).

(** All items the fetchers produced, in production order. *)
Definition fetched_items (outs : list fetch_outcome) : list item :=
  flat_map (fun o => match o with Fetched l => l | FetchRaised => [] end) outs.

(** Index [i] of [xs] holds the first item with its (non-empty) key. *)
Definition first_occurrence (xs : list item) (d : item) (i : nat) : bool :=
  let k := title_key (nth i xs d) in
  truthy k && forallb (fun j => negb (String.eqb (title_key (nth j xs d)) k)) (seq 0 i).

(** The items of [xs] kept by a first-seen-wins dedup on the non-empty
    normalised title, in their original order. *)
Definition first_seen (xs : list item) (d : item) : list item :=
  map (fun i => nth i xs d) (filter (first_occurrence xs d) (seq 0 (length xs))).

End Dedup.

(** Two fetched items whose titles are both blank. *)
Definition blank_a : item := mk_item " " "https://a.example/1" "" "" "Wired".
Definition blank_b : item := mk_item "  " "https://b.example/2" "" "" "Wired".

(** A fetched item with a title. *)
Definition titled_c : item := mk_item "New chips" "https://c.example/3" "" "" "Wired".

(** *** Feeds ([_age_days], [_fetch_feed], [_clean_html]) *)

(** A feedparser entry: the keys [_fetch_feed] reads, [None] when absent.
    [published_parsed] is the UTC time struct, as seconds since the epoch. *)
Record entry := mk_entry {
  e_title : option string;
  e_link : option string;
  e_summary : option string;
  e_description : option string;
  e_published : option string;
  e_published_parsed : option Z
}.

(** The result of [feedparser.parse(url)]: [feed.feed.get("title")] and
    [feed.entries]; the bozo flag only produces a log line. *)
Record feed := mk_feed {
  feed_title : option string;
  entries : list entry
}.

Definition get_or (o : option string) (dflt : string) : string :=
  match o with Some v => v | None => dflt end.

(** [_age_days]: the time division is modelled exactly, as a rational. *)
Definition age_days (now : Z) (published_parsed : option Z) : Q :=
  match published_parsed with
  | None => 0%Q
  | Some t => ((now - t)%Z # 86400)%Q
  end.

(** [re.sub(r"\s+", " ", text)], over the code points: every maximal run
    of whitespace becomes one space. *)
Fixpoint collapse_cps (prev_space : bool) (l : list string) : list string :=
  match l with
  | [] => []
  | x :: r =>
      if is_ws_cp x then
        if prev_space then collapse_cps true r
        else " "%string :: collapse_cps true r
      else x :: collapse_cps false r
  end.

Definition collapse_ws (s : string) : string := cat (collapse_cps false (cps s)).

Section Feeds.

(** [str.lower] *)
Variable lower : string -> string.
(** [BeautifulSoup(raw, "html.parser").get_text(separator=" ")] *)
Variable get_text : string -> string.
(** [feedparser.parse]: [None] when it raises. *)
Variable parse : string -> option feed.
(** The current UTC time, seconds since the epoch. *)
Variable now : Z.

(** [_clean_html] *)
Definition clean_html (raw : string) : string :=
  if truthy raw then py_take 600 (strip (collapse_ws (get_text raw))) else EmptyString.

(** The dict [_fetch_feed] appends for [entry]. *)
Definition item_of_entry (src : string) (e : entry) : item :=
  mk_item (strip (get_or (e_title e) EmptyString))
          (get_or (e_link e) EmptyString)
          (clean_html (match e_summary e with
                       | Some v => v
                       | None => get_or (e_description e) EmptyString
                       end))
          (get_or (e_published e) EmptyString)
          src.

(** [if age > max_age_days: continue] *)
Definition too_old (max_age_days : Z) (e : entry) : bool :=
  negb (Qle_bool (age_days now (e_published_parsed e)) (inject_Z max_age_days)).

(** The [for entry in feed.entries[:limit * 2]] loop. *)
Fixpoint feed_loop (src : string) (max_age_days : Z) (limit : nat)
    (es : list entry) (items : list item) : list item :=
  match es with
  | [] => items
  | e :: rest =>
      if too_old max_age_days e then feed_loop src max_age_days limit rest items
      else
        let items' := items ++ [item_of_entry src e] in
        if limit <=? length items' then items'
        else feed_loop src max_age_days limit rest items'
  end.

(** [_fetch_feed(url, max_age_days, limit)] *)
Definition fetch_feed (u : string) (max_age_days : Z) (limit : nat) : list item :=
  match parse u with
  | None => []
  | Some f =>
      feed_loop (get_or (feed_title f) u) max_age_days limit
                (firstn (limit * 2) (entries f)) []
  end.

(** Python's [needle in hay] on strings. *)
Fixpoint contains (needle hay : string) : bool :=
  prefix needle hay ||
  match hay with
  | EmptyString => false
  | String _ r => contains needle r
  end.

(** The keyword filter of the general-purpose feed fetchers. *)
Definition keyword_match (kws : list string) (i : item) : bool :=
  existsb (fun kw => contains kw (lower (title i)) || contains kw (lower (summary i))) kws.

(** [item["source"] = label] *)
Definition set_source (label : string) (i : item) : item :=
  mk_item (title i) (url i) (summary i) (published i) label.

(** [for item in _fetch_feed(...): if item["url"] not in seen: ...] *)
Fixpoint arxiv_collect (label : string) (items : list item)
    (seen : list string) (all_items : list item) : list string * list item :=
  match items with
  | [] => (seen, all_items)
  | it :: rest =>
      if existsb (String.eqb (url it)) seen
      then arxiv_collect label rest seen all_items
      else arxiv_collect label rest (url it :: seen) (all_items ++ [set_source label it])
  end.

Definition arxiv_feeds : list (string * string) :=
  [("https://rss.arxiv.org/rss/cs.AI", "ArXiv cs.AI");
   ("https://rss.arxiv.org/rss/cs.LG", "ArXiv cs.LG");
   ("https://rss.arxiv.org/rss/cs.CL", "ArXiv cs.CL")]%string.

(** [fetch_arxiv(max_age_days)] with its default [limit=20]. *)
Definition fetch_arxiv (max_age_days : Z) : list item :=
  firstn 20
    (snd (fold_left
            (fun acc fl =>
               arxiv_collect (snd fl) (fetch_feed (fst fl) max_age_days 15)
                             (fst acc) (snd acc))
            arxiv_feeds ([], []))).

Definition techcrunch_keywords : list string :=
  ["ai"; "artificial intelligence"; "machine learning"; "openai"; "anthropic";
   "google deepmind"; "llm"; "chatgpt"; "claude"; "gemini"; "gpt";
   "deep learning"; "neural"; "robot"; "automation"; "generative"]%string.

Definition verge_keywords : list string :=
  ["ai"; "artificial intelligence"; "openai"; "anthropic"; "chatgpt";
   "claude"; "gemini"; "llm"; "machine learning"; "deep learning";
   "robot"; "automation"; "generative"; "gpt"; "neural"]%string.

Definition mit_keywords : list string :=
  ["ai"; "artificial intelligence"; "machine learning"; "deep learning";
   "neural"; "llm"; "robot"; "automation"; "generative"; "openai";
   "anthropic"; "chatgpt"; "algorithm"]%string.

Definition venturebeat_keywords : list string :=
  ["ai"; "artificial intelligence"; "machine learning"; "llm"; "generative";
   "openai"; "anthropic"; "deep learning"; "neural"; "robot"; "gpt";
   "chatgpt"; "claude"; "gemini"; "automation"]%string.

(** The shape shared by [fetch_techcrunch], [fetch_verge],
    [fetch_mit_tech_review] and [fetch_venturebeat]. *)
Definition fetch_filtered (u : string) (feed_limit : nat) (kws : list string)
    (limit : nat) (max_age_days : Z) : list item :=
  firstn limit (filter (keyword_match kws) (fetch_feed u max_age_days feed_limit)).

Definition fetch_techcrunch (max_age_days : Z) : list item :=
  fetch_filtered "https://techcrunch.com/feed/" 40 techcrunch_keywords 15 max_age_days.

Definition fetch_verge (max_age_days : Z) : list item :=
  fetch_filtered "https://www.theverge.com/rss/index.xml" 60 verge_keywords 15 max_age_days.

Definition fetch_mit_tech_review (max_age_days : Z) : list item :=
  fetch_filtered "https://www.technologyreview.com/feed/" 30 mit_keywords 10 max_age_days.

Definition fetch_venturebeat (max_age_days : Z) : list item :=
  fetch_filtered "https://venturebeat.com/feed/" 40 venturebeat_keywords 15 max_age_days.

Definition fetch_wired (max_age_days : Z) : list item :=
  firstn 10 (fetch_feed "https://www.wired.com/feed/tag/artificial-intelligence/latest/rss"
                        max_age_days 20).

(** [aggregate_news(max_age_days)]; [hn] is what [fetch_hackernews] returned
    (an HTTP search API, not a feed).  None of the modelled fetchers raises. *)
Definition aggregate_news (hn : list item) (max_age_days : Z) : list item :=
  aggregate_news_from lower
    [Fetched hn;
     Fetched (fetch_arxiv max_age_days);
     Fetched (fetch_techcrunch max_age_days);
     Fetched (fetch_verge max_age_days);
     Fetched (fetch_mit_tech_review max_age_days);
     Fetched (fetch_venturebeat max_age_days);
     Fetched (fetch_wired max_age_days)].

(** [e] is not more than [max_age_days] days older than [now] (or has no
    publish time). *)
Definition in_window (max_age_days : Z) (e : entry) : Prop :=
  forall t, e_published_parsed e = Some t -> (now - t <= max_age_days * 86400)%Z.

(** [it] was built by [_fetch_feed] from an entry, inside the window, of a
    feed the network returned (the source label possibly rewritten). *)
Definition from_recent_entry (max_age_days : Z) (it : item) : Prop :=
  exists u f e src, parse u = Some f /\ In e (entries f) /\
    in_window max_age_days e /\ it = item_of_entry src e.

End Feeds.

(** *** Hacker News ([fetch_hackernews]) *)

(** A hit of the Algolia search API: the keys [fetch_hackernews] reads.
    [None] stands for an absent key; for [url] also for [null].  For
    [title], [points] and [num_comments], [Some None] is a [null] value.
    [created_at] goes to the item's ["published"] key, which no code reads;
    a [null] there is modelled as an absent key. *)
Record hn_hit := mk_hit {
  hit_url : option string;
  hit_object_id : option string;
  hit_title : option (option string);
  hit_points : option (option Z);
  hit_num_comments : option (option Z);
  hit_created_at : option string
}.

(** [f"{n}"] for a Python [int]. *)
Definition z_str (z : Z) : string := NilZero.string_of_int (Z.to_int z).

(** [f"{hit.get(key, 0)}"] for an [int] or [null] value. *)
Definition count_str (o : option (option Z)) : string :=
  match o with
  | None => "0"%string
  | Some None => "None"%string
  | Some (Some z) => z_str z
  end.

Definition hn_keywords : list string :=
  ["artificial intelligence"; "machine learning"; "LLM"; "GPT"; "Claude";
   "OpenAI"; "Anthropic"; "deep learning"; "neural network"; "AI";
   "robotics"; "autonomous"; "transformer"; "diffusion"; "model"]%string.

(** [hit.get("url") or f"https://news.ycombinator.com/item?id={hit['objectID']}"];
    [None] when [hit['objectID']] raises [KeyError]. *)
Definition hn_story_url (h : hn_hit) : option string :=
  let fallback := match hit_object_id h with
                  | Some id => Some ("https://news.ycombinator.com/item?id=" ++ id)%string
                  | None => None
                  end in
  match hit_url h with
  | Some u => if truthy u then Some u else fallback
  | None => fallback
  end.

(** The dict appended for a hit whose title is a string ([t]). *)
Definition hn_item (h : hn_hit) (t : string) (story_url : string) : item :=
  mk_item (strip t)
          story_url
          ("HN points: " ++ count_str (hit_points h) ++
           " | comments: " ++ count_str (hit_num_comments h))%string
          (get_or (hit_created_at h) EmptyString)
          "Hacker News".

(** [for hit in resp.json().get("hits", []): ...]: the set [seen] and the
    list [results] after the loop.  A [KeyError] on [objectID] leaves the
    loop before [seen.add]; a [null] title raises [AttributeError] at
    [.strip()] after [seen.add(story_url)] and leaves the loop too.  The
    handler only logs, and the next keyword continues with [seen] and
    [results] as they are. *)
Fixpoint hn_collect (hits : list hn_hit) (seen : list string) (results : list item)
    : list string * list item :=
  match hits with
  | [] => (seen, results)
  | h :: rest =>
      match hn_story_url h with
      | None => (seen, results)
      | Some u =>
          if existsb (String.eqb u) seen then hn_collect rest seen results
          else match hit_title h with
               | Some None => (u :: seen, results)
               | Some (Some t) => hn_collect rest (u :: seen) (results ++ [hn_item h t u])
               | None => hn_collect rest (u :: seen) (results ++ [hn_item h EmptyString u])
               end
      end
  end.

(** [fetch_hackernews(max_age_days, limit)]; [search kw] is the answer to the
    query for [kw] (its URL also carries the cutoff computed from
    [max_age_days]): the hits, or [None] when [requests.get],
    [raise_for_status] or [resp.json()] raises.  The [time.sleep(0.3)]
    pauses have no other effect. *)
Definition fetch_hackernews (search : string -> option (list hn_hit)) (limit : nat)
    : list item :=
  firstn limit
    (snd (fold_left
            (fun acc kw => match search kw with
                           | None => acc
                           | Some hits => hn_collect hits (fst acc) (snd acc)
                           end)
            (firstn 6 hn_keywords) ([], []))).

End Aggregator.

(** ** Summarizer ([src/summarizer.py]) *)

Module Summarizer.

Local Set Warnings "-register-all".

(** Values produced by [json.loads]; a JSON object is a Python dict, kept as
    an association list in insertion order. *)
Inductive json :=
| JNull
| JBool (b : bool)
| JNum (n : Z)
| JStr (s : string)
| JArr (l : list json)
| JObj (fields : list (string * json)).

(** The exceptions the modelled code raises or propagates. *)
Inductive py_error :=
| TypeError
| AttributeError
| ValueError (msg : string)
| IndexError
| RecursionError
| APIError.

Inductive result (A : Type) :=
| Ok (a : A)
| Raise (e : py_error).
Arguments Ok {A} a.
Arguments Raise {A} e.

Definition bind {A B} (m : result A) (k : A -> result B) : result B :=
  match m with Ok a => k a | Raise e => Raise e end.

Notation "x <- m ;; k" := (bind m (fun x => k))
  (at level 61, m at next level, right associativity).

Fixpoint map_r {A B} (f : A -> result B) (l : list A) : result (list B) :=
  match l with
  | [] => Ok []
  | x :: r => y <- f x ;; ys <- map_r f r ;; Ok (y :: ys)
  end.

(** [d.get(k)] *)
Fixpoint dict_get (d : list (string * json)) (k : string) : option json :=
  match d with
  | [] => None
  | (k', v) :: r => if String.eqb k k' then Some v else dict_get r k
  end.

(** [k in d] *)
Definition dict_mem (d : list (string * json)) (k : string) : bool :=
  match dict_get d k with Some _ => true | None => false end.

(** [d[k] = v]: an existing key keeps its position, a new one goes last. *)
Fixpoint dict_set (d : list (string * json)) (k : string) (v : json)
    : list (string * json) :=
  match d with
  | [] => [(k, v)]
  | (k', v') :: r => if String.eqb k k' then (k', v) :: r else (k', v') :: dict_set r k v
  end.

(** [story.setdefault(k, v)]: only a dict has [setdefault]. *)
Definition setdefault (k : string) (v : json) (story : json) : result json :=
  match story with
  | JObj fs => Ok (JObj (if dict_mem fs k then fs else dict_set fs k v))
  | _ => Raise AttributeError
  end.

Definition CATEGORIES : list string :=
  ["Research Breakthroughs";
   "Product Launches & Updates";
   "Industry News & Business";
   "Policy, Safety & Ethics";
   "Open Source & Developer Tools";
   "Robotics & Autonomous Systems";
   "Other AI & Tech News"]%string.

(** The four [setdefault] calls on one story; [field] is ["reason"] for a top
    story and ["summary"] for a category story. *)
Definition default_story (field : string) (story : json) : result json :=
  s1 <- setdefault "title" (JStr "Untitled") story ;;
  s2 <- setdefault "url" (JStr "#") s1 ;;
  s3 <- setdefault "source" (JStr "Unknown") s2 ;;
  setdefault field (JStr EmptyString) s3.

(** [for story in cat_items: ...]: iterating a list visits its elements, a
    string its characters and a dict its keys (neither has [setdefault]);
    iterating [None], a bool or a number raises [TypeError]. *)
Definition default_cat_items (cat_items : json) : result json :=
  match cat_items with
  | JArr l => l' <- map_r (default_story "summary") l ;; Ok (JArr l')
  | JStr EmptyString => Ok cat_items
  | JStr _ => Raise AttributeError
  | JObj [] => Ok cat_items
  | JObj _ => Raise AttributeError
  | _ => Raise TypeError
  end.

(** [for cat in CATEGORIES: if cat not in categories: categories[cat] = []] *)
Definition ensure_categories (cats : list (string * json)) : list (string * json) :=
  fold_left (fun c cat => if dict_mem c cat then c else dict_set c cat (JArr [])) CATEGORIES cats.

(** [_validate_result(result)], returning the mutated [result]. *)
Definition validate_result (r : json) : result json :=
  match r with
  | JObj fs0 =>
      let fs1 := if dict_mem fs0 "executive_summary" then fs0
                 else dict_set fs0 "executive_summary" (JStr "No summary available.") in
      let fs2 := match dict_get fs1 "top_stories" with
                 | Some (JArr _) => fs1
                 | _ => dict_set fs1 "top_stories" (JArr [])
                 end in
      let cats0 := match dict_get fs2 "categories" with
                   | Some (JObj c) => c
                   | _ => []
                   end in
      let cats1 := ensure_categories cats0 in
      let tops := match dict_get fs2 "top_stories" with
                  | Some (JArr l) => l
                  | _ => []
                  end in
      tops' <- map_r (default_story "reason") tops ;;
      cats2 <- map_r (fun kv => v' <- default_cat_items (snd kv) ;; Ok (fst kv, v')) cats1 ;;
      Ok (JObj (dict_set (dict_set fs2 "top_stories" (JArr tops')) "categories" (JObj cats2)))
  | _ => Raise TypeError
  end.

(** [_empty_result()] *)
Definition empty_result : json :=
  JObj [("executive_summary", JStr "No news items were available this week.");
        ("top_stories", JArr []);
        ("categories", JObj (map (fun c => (c, JArr [])) CATEGORIES))]%string.

Definition fallback_summary : string :=
  "This week's briefing contains the latest AI and tech news. Automated summarization encountered an issue; stories are listed below.".

(** The category entry [_fallback_result] builds from an item. *)
Definition category_story (it : item) : json :=
  JObj [("title", JStr (title it)); ("url", JStr (url it));
        ("source", JStr (source it)); ("summary", JStr (summary it))]%string.

(** The top-story entry [_fallback_result] builds from an item. *)
Definition top_story (it : item) : json :=
  JObj [("title", JStr (title it)); ("url", JStr (url it));
        ("source", JStr (source it)); ("reason", JStr (py_take 150 (summary it)))]%string.

(** [_fallback_result(items)] *)
Definition fallback_result (items : list item) : json :=
  let categories := map (fun c => (c, JArr [])) CATEGORIES in
  let categories := dict_set categories "Other AI & Tech News"
                      (JArr (map category_story (firstn 40 items))) in
  JObj [("executive_summary", JStr fallback_summary);
        ("top_stories", JArr (map top_story (firstn 5 items)));
        ("categories", JObj categories)]%string.

Definition nl : string := String (ascii_of_nat 10) EmptyString.

Definition nat_str (n : nat) : string := NilZero.string_of_uint (Nat.to_uint n).

(** One entry of [_build_news_text]. *)
Definition news_line (i : nat) (it : item) : string :=
  "[" ++ nat_str i ++ "] SOURCE: " ++ source it ++ nl ++
  "    TITLE: " ++ title it ++ nl ++
  "    URL: " ++ url it ++ nl ++
  "    SUMMARY: " ++ py_take 300 (summary it) ++ nl.

Fixpoint news_lines (i : nat) (items : list item) : list string :=
  match items with
  | [] => []
  | it :: r => news_line i it :: news_lines (S i) r
  end.

(** [_build_news_text(items, max_items=60)] *)
Definition build_news_text (items : list item) : string :=
  String.concat nl (news_lines 1 (firstn 60 items)).

(** What [client.messages.create] is called with: the model and the parts of
    the prompt that depend on the items ([len(items)] and the news text);
    the rest of the prompt is a fixed template. *)
Record request := mk_request {
  req_model : string;
  req_item_count : nat;
  req_news_text : string
}.

(** The external capability's answer, as [message.content[0].text] sees it:
    the first content block is a text block ([ApiText]); the content is
    empty ([IndexError]); the first block has no [text] attribute
    ([AttributeError]); or the call raised [anthropic.APIError]. *)
Inductive api_response :=
| ApiText (raw : string)
| ApiNoContent
| ApiNoText
| ApiFailed.

(** What [json.loads(raw)] did: the decoded value, a
    [json.JSONDecodeError], or another exception ([ValueError] for an
    integer literal beyond the digit limit, [RecursionError] for too deep a
    nesting). *)
Inductive loads_outcome :=
| Loaded (j : json)
| DecodeError
| LoadRaised (e : py_error).

(** [s.split(sep, 2)[1]] when [s] starts with [sep]: the text up to the next
    [sep]. *)
Fixpoint before_first (sep s : string) : string :=
  if prefix sep s then EmptyString
  else match s with
       | EmptyString => EmptyString
       | String c r => String c (before_first sep r)
       end.

(** [s.rsplit(sep, 1)[0]] *)
Fixpoint before_last (sep s : string) : string :=
  match s with
  | EmptyString => EmptyString
  | String c r =>
      if prefix sep s && negb (Aggregator.contains sep r) then EmptyString
      else String c (before_last sep r)
  end.

Definition fence : string := "```".

(** The markdown-fence stripping before [json.loads]. *)
Definition strip_fences (raw : string) : string :=
  if prefix fence raw then
    let r := before_first fence (substring 3 (String.length raw) raw) in
    let r := if prefix "json" r then substring 4 (String.length r) r else r in
    strip (before_last fence r)
  else raw.

(** The key lookup [api_key or os.environ.get("ANTHROPIC_API_KEY")]. *)
Definition or_str (a b : option string) : option string :=
  match a with
  | Some v => if truthy v then Some v else b
  | None => b
  end.

Section Summarize.

(** [json.loads] *)
Variable json_loads : string -> loads_outcome.
(** The external summarisation capability. *)
Variable api : request -> api_response.

(** [categorize_and_summarize(items, api_key, model)]: the requests sent to
    the capability, and the returned dict or the exception raised. *)
Definition categorize_and_summarize (env_key api_key : option string)
    (model : string) (items : list item) : list request * result json :=
  match items with
  | [] => ([], Ok empty_result)
  | _ =>
      match or_str api_key env_key with
      | None => ([], Raise (ValueError "ANTHROPIC_API_KEY is not set."))
      | Some k =>
          if truthy k then
            let req := mk_request model (length items) (build_news_text items) in
            match api req with
            | ApiFailed => ([req], Raise APIError)
            | ApiNoContent => ([req], Raise IndexError)
            | ApiNoText => ([req], Raise AttributeError)
            | ApiText text =>
                match json_loads (strip_fences (strip text)) with
                | DecodeError => ([req], Ok (fallback_result items))
                | LoadRaised e => ([req], Raise e)
                | Loaded j => ([req], validate_result j)
                end
            end
          else ([], Raise (ValueError "ANTHROPIC_API_KEY is not set."))
      end
  end.

End Summarize.

(** The categories dict the validation step starts from: the input's
    ["categories"] when it is a dict, and [{}] otherwise. *)
Definition input_categories (fs : list (string * json)) : list (string * json) :=
  match dict_get fs "categories" with Some (JObj c) => c | _ => [] end.

(** A response with one fixed category, one extra key and a story without
    a [url] field. *)
Definition sample_response : list (string * json) :=
  [("executive_summary", JStr "Busy week.");
   ("categories",
     JObj [("Research Breakthroughs",
             JArr [JObj [("title", JStr "New model"); ("source", JStr "ArXiv cs.AI")]]);
           ("Hardware", JArr [])])]%string.

Definition sample_items : list item :=
  [mk_item "Chip news" "https://x.example/1" "A new accelerator." "Mon" "Wired";
   mk_item "Model news" "https://y.example/2" "A new model." "Tue" "ArXiv cs.AI"]%string.

End Summarizer.

(** ** Document Renderer ([src/pdf_generator.py]) *)

Module Renderer.

(** A story dict as the renderer reads it: string fields by key. *)
Definition story := list (string * string).

Fixpoint story_get (st : story) (k dflt : string) : string :=
  match st with
  | [] => dflt
  | (k', v) :: r => if String.eqb k k' then v else story_get r k dflt
  end.

(** The parts of the briefing dict [generate_pdf] renders stories from. *)
Record briefing := mk_briefing {
  top_stories : list story;
  categories : list (string * list story)
}.

(** ["…"] (U+2026), one code point, three UTF-8 bytes. *)
Definition ellipsis : string :=
  String (ascii_of_nat 226) (String (ascii_of_nat 128) (String (ascii_of_nat 166) EmptyString)).

(** [text[:n] + ("…" if len(text) > n else "")] *)
Definition truncate_display (n : nat) (text : string) : string :=
  py_take n text ++ (if n <? py_len text then ellipsis else EmptyString).

(** The texts of a top-story card: [title_text] and [reason_text]. *)
Definition top_story_texts (st : story) : string * string :=
  (story_get st "title" "Untitled", story_get st "reason" EmptyString).

(** The texts of [_build_story_card(story)]: [title_display] and
    [summary_display]. *)
Definition story_card_texts (st : story) : string * string :=
  (truncate_display 120 (story_get st "title" "Untitled"),
   truncate_display 280 (story_get st "summary" EmptyString)).

(** [non_empty_cats] *)
Definition non_empty_cats (b : briefing) : list (string * list story) :=
  filter (fun kv => match snd kv with [] => false | _ => true end) (categories b).

(** The stories of the category pages, in rendering order (cards alternate
    between the two columns in this order). *)
Definition category_stories (b : briefing) : list story :=
  flat_map snd (non_empty_cats b).

(** The story texts [generate_pdf] lays out: the top-5 section, then the
    cards of the category pages. *)
Definition rendered_top_stories (b : briefing) : list (string * string) :=
  map top_story_texts (firstn 5 (top_stories b)).

Definition rendered_category_cards (b : briefing) : list (string * string) :=
  map story_card_texts (category_stories b).

(** [shown] is how a field of at most [n] characters displays [raw]: as is
    when it fits, else its first [n] characters and an ellipsis. *)
Definition displayed (n : nat) (raw shown : string) : Prop :=
  (py_len raw <= n /\ shown = raw) \/
  (n < py_len raw /\ shown = (py_take n raw ++ ellipsis)%string /\ py_len shown = n + 1).

(** A briefing whose top story and category story have long titles. *)
Definition long_title : string := string_of_list_ascii (repeat "a"%char 130).

Definition long_briefing : briefing :=
  mk_briefing [[("title", long_title)]]%string
              [("Research Breakthroughs", [[("title", long_title); ("summary", "Short.")]])]%string.

(** [all_stories = [s for cat in categories.values() for s in cat]] *)
Definition all_stories (b : briefing) : list story :=
  flat_map snd (categories b).

(** [sources = {s.get("source", "Unknown") for s in all_stories}], as the
    list of its distinct elements. *)
Definition source_set (b : briefing) : list string :=
  nodup string_dec (map (fun s => story_get s "source" "Unknown") (all_stories b)).

(** The three figures of the stats box: [len(all_stories)],
    [len(sources)] and [len(non_empty_cats)].  [generate_pdf] (cover page),
    [_render_html] and [_build_email_html] compute them alike. *)
Definition briefing_stats (b : briefing) : nat * nat * nat :=
  (length (all_stories b), length (source_set b), length (non_empty_cats b)).

(** [f"{n:02d}"] for [n >= 0]: the decimal digits, zero-padded to width 2. *)
Definition pad02 (s : string) : string :=
  if String.length s <? 2 then ("0" ++ s)%string else s.

(** The [for cat_name, _ in non_empty_cats] loop of the table of contents:
    the entries it appends and the final [page_num]. *)
Fixpoint toc_categories (page_num : nat) (cats : list (string * list story))
    : list (string * string * string) * nat :=
  match cats with
  | [] => ([], page_num)
  | (cat_name, _) :: r =>
      let (rest, p) := toc_categories (S page_num) r in
      ((pad02 (Summarizer.nat_str page_num), cat_name,
        ("p. " ++ Summarizer.nat_str page_num)%string) :: rest, p)
  end.

(** [toc_items] of [generate_pdf]: number, title and page of each row. *)
Definition toc_items (b : briefing) : list (string * string * string) :=
  let (cat_items, page_num) := toc_categories 4 (non_empty_cats b) in
  [("01", "Executive Summary", "p. 3"); ("02", "Top 5 Stories", "p. 3")]%string ++
  cat_items ++
  [(pad02 (Summarizer.nat_str page_num), "Sources & Methodology",
    "p. " ++ Summarizer.nat_str page_num)%string].

End Renderer.

(** ** Delivery ([src/email_sender.py]) *)

Module Delivery.

(** How one [with smtplib.SMTP_SSL(...) as server: login; sendmail] attempt
    ends: success, [SMTPAuthenticationError], another [SMTPException]
    (identified by [id]), or an error that is not an [SMTPException]
    (e.g. an [OSError] while connecting). *)
Inductive attempt_outcome :=
| SendOk
| SmtpAuthFail
| SmtpFail (id : nat)
| SocketFail.

(** Observable effects: opening the SMTP connection of an attempt, a
    completed [sendmail], and [time.sleep(seconds)]. *)
Inductive event :=
| EvConnect (attempt : nat)
| EvSent (attempt : nat)
| EvSleep (seconds : nat).

Inductive send_error :=
| ConfigError (msg : string)
| AuthError
| TransportError (id : nat)
| SocketError.

(** The [for attempt in range(1, max_retries + 1)] loop; [world attempt] is
    the outcome of that attempt.  [None] means the function returned. *)
Fixpoint send_attempts (world : nat -> attempt_outcome) (max_retries attempt fuel : nat)
    (last_exc : option send_error) : list event * option send_error :=
  match fuel with
  | O => ([], last_exc)
  | S fuel' =>
      match world attempt with
      | SendOk => ([EvConnect attempt; EvSent attempt], None)
      | SmtpAuthFail => ([EvConnect attempt], Some AuthError)
      | SocketFail => ([EvConnect attempt], Some SocketError)
      | SmtpFail id =>
          let rest := send_attempts world max_retries (S attempt) fuel'
                                    (Some (TransportError id)) in
          (EvConnect attempt ::
             (if attempt <? max_retries then [EvSleep (2 ^ attempt)] else []) ++ fst rest,
           snd rest)
      end
  end.

Definition send_with_retry (world : nat -> attempt_outcome) (max_retries : nat)
    : list event * option send_error :=
  send_attempts world max_retries 1 max_retries None.

Definition opt_truthy (o : option string) : bool :=
  match o with Some v => truthy v | None => false end.

(** The configuration [send_briefing] resolves, by environment name. *)
Definition email_config (env : string -> option string)
    (recipient_email sender_email gmail_app_password : option string)
    : list (string * option string) :=
  [("RECIPIENT_EMAIL", Summarizer.or_str recipient_email (env "RECIPIENT_EMAIL"));
   ("SENDER_EMAIL", Summarizer.or_str sender_email (env "SENDER_EMAIL"));
   ("GMAIL_APP_PASSWORD", Summarizer.or_str gmail_app_password (env "GMAIL_APP_PASSWORD"))]%string.

(** [missing] *)
Definition missing_config (cfg : list (string * option string)) : list string :=
  map fst (filter (fun nv => negb (opt_truthy (snd nv))) cfg).

(** [send_briefing(...)]: the configuration check, then the send loop.  The
    steps in between build the message and touch only local files. *)
Definition send_briefing (env : string -> option string)
    (recipient_email sender_email gmail_app_password : option string)
    (max_retries : nat) (world : nat -> attempt_outcome)
    : list event * option send_error :=
  let cfg := email_config env recipient_email sender_email gmail_app_password in
  if forallb (fun nv => opt_truthy (snd nv)) cfg
  then send_with_retry world max_retries
  else ([], Some (ConfigError ("Missing email configuration: " ++
                               String.concat ", " (missing_config cfg)))).

(** Whether an event opens a connection. *)
Definition is_connect (ev : event) : bool :=
  match ev with EvConnect _ => true | _ => false end.

(** [c * n] for a one-character string [c]. *)
Definition rep_char (c : ascii) (n : nat) : string :=
  string_of_list_ascii (repeat c n).

(** ["•"] (U+2022), three UTF-8 bytes. *)
Definition bullet : string :=
  String (ascii_of_nat 226) (String (ascii_of_nat 128) (String (ascii_of_nat 162) EmptyString)).

Section PlainText.

(** Python's [str.upper] on the category names. *)
Variable upper : string -> string.

(** The four lines of top story number [i] and of those after it, in the
    [for i, story in enumerate(briefing.get("top_stories", []), 1)] loop. *)
Fixpoint top_story_lines (i : nat) (tops : list Renderer.story) : list string :=
  match tops with
  | [] => []
  | st :: r =>
      [Summarizer.nat_str i ++ ". " ++ Renderer.story_get st "title" "" ++
         " [" ++ Renderer.story_get st "source" "" ++ "]";
       "   " ++ Renderer.story_get st "url" "";
       "   " ++ Renderer.story_get st "reason" "";
       ""]%string ++ top_story_lines (S i) r
  end.

(** The four lines of one story of a category. *)
Definition category_story_lines (st : Renderer.story) : list string :=
  [bullet ++ " " ++ Renderer.story_get st "title" "" ++
     " [" ++ Renderer.story_get st "source" "" ++ "]";
   "  " ++ Renderer.story_get st "url" "";
   "  " ++ Renderer.story_get st "summary" "";
   ""]%string.

(** The lines one category adds: none when it has no stories. *)
Definition category_lines (cs : string * list Renderer.story) : list string :=
  match snd cs with
  | [] => []
  | stories => [""; upper (fst cs); rep_char "-" 40]%string ++ flat_map category_story_lines stories
  end.

(** [lines] of [_build_plain_text(briefing, now)], for a briefing whose
    executive summary [exec_summary] is a string; [generated] is
    [now.strftime('%B %d, %Y')]. *)
Definition plain_text_lines (generated exec_summary : string) (b : Renderer.briefing)
    : list string :=
  ["AI & TECH WEEKLY BRIEFING"; "Generated: " ++ generated; rep_char "=" 60; "";
   "EXECUTIVE SUMMARY"; rep_char "-" 40; exec_summary; "";
   "TOP STORIES"; rep_char "-" 40]%string ++
  top_story_lines 1 (Renderer.top_stories b) ++
  flat_map category_lines (Renderer.categories b).

(** [_build_plain_text(briefing, now)]: ["\n".join(lines)]. *)
Definition build_plain_text (generated exec_summary : string) (b : Renderer.briefing) : string :=
  String.concat Summarizer.nl (plain_text_lines generated exec_summary b).

End PlainText.

(** Outcomes used to exercise the retry loop. *)
Definition flaky_world (n : nat) : attempt_outcome :=
  match n with 1 | 2 => SmtpFail n | _ => SendOk end.

End Delivery.

(** ** Entry point ([main.py]) *)

Module Main.

Record args := mk_args {
  days : Z;
  dry_run : bool;
  min_stories : Z;
  model : string
}.


(** [len(v)] does not raise: [v] is a list, a string or a dict. *)
Definition has_len (v : Summarizer.json) : bool :=
  match v with
  | Summarizer.JArr _ | Summarizer.JStr _ | Summarizer.JObj _ => true
  | _ => false
  end.

(** The log line after summarising does not raise:
    [briefing.get("categories", {}).values()] and [len] of each value, and
    [len(briefing.get("top_stories", []))]. *)
Definition summary_log_ok (briefing : Summarizer.json) : bool :=
  match briefing with
  | Summarizer.JObj fs =>
      match Summarizer.dict_get fs "categories" with
      | None => true
      | Some (Summarizer.JObj c) => forallb (fun kv => has_len (snd kv)) c
      | Some _ => false
      end &&
      match Summarizer.dict_get fs "top_stories" with
      | None => true
      | Some v => has_len v
      end
  | _ => false
  end.

(** The dry-run printout does not raise: every element of
    [briefing.get("top_stories", [])] has a [get] method (iterating a
    string gives strings and iterating a dict gives its keys). *)
Definition dry_run_print_ok (briefing : Summarizer.json) : bool :=
  match briefing with
  | Summarizer.JObj fs =>
      match Summarizer.dict_get fs "top_stories" with
      | None => true
      | Some (Summarizer.JArr l) =>
          forallb (fun s => match s with Summarizer.JObj _ => true | _ => false end) l
      | Some (Summarizer.JStr t) => negb (truthy t)
      | Some (Summarizer.JObj []) => true
      | Some _ => false
      end
  | _ => false
  end.

(** The pipeline steps [main] starts. *)
Inductive stage :=
| StageSummarize
| StageGeneratePdf
| StageSendEmail.

Section MainModel.

Variable json_loads : string -> Summarizer.loads_outcome.
Variable api : Summarizer.request -> Summarizer.api_response.
Variable env_key : option string.
(** [generate_pdf] and [send_briefing]: whether they return or raise. *)
Variable generate_pdf_ok : Summarizer.json -> bool.
Variable send_briefing_ok : Summarizer.json -> bool.

(** [main()] after [parse_args()] returned [a], given what [aggregate_news]
    did ([None]: it raised): the exit status, the requests sent to the
    summarisation capability, and the steps started.  An exception outside
    the [try] blocks (the log line after summarising, the dry-run printout)
    ends the process with status 1. *)
Definition main (a : args) (aggregated : option (list item))
    : Z * list Summarizer.request * list stage :=
  match aggregated with
  | None => (1%Z, [], [])
  | Some news_items =>
      if (Z.of_nat (length news_items) <? min_stories a)%Z then (1%Z, [], [])
      else
        let (reqs, r) := Summarizer.categorize_and_summarize json_loads api env_key None
                           (model a) news_items in
        match r with
        | Summarizer.Raise _ => (1%Z, reqs, [StageSummarize])
        | Summarizer.Ok briefing =>
            if negb (summary_log_ok briefing) then (1%Z, reqs, [StageSummarize])
            else if generate_pdf_ok briefing then
              if dry_run a then
                if dry_run_print_ok briefing then (0%Z, reqs, [StageSummarize; StageGeneratePdf])
                else (1%Z, reqs, [StageSummarize; StageGeneratePdf])
              else if send_briefing_ok briefing
                   then (0%Z, reqs, [StageSummarize; StageGeneratePdf; StageSendEmail])
                   else (1%Z, reqs, [StageSummarize; StageGeneratePdf; StageSendEmail])
            else (1%Z, reqs, [StageSummarize; StageGeneratePdf])
        end
  end.


End MainModel.

Definition default_args : args := mk_args 7 false 10 "claude-sonnet-4-5-20250929".

End Main.

(** * Proofs *)

(** ** Aggregator *)

Module AggregatorProofs.
Import Aggregator.

Section Dedup.

Variable lower : string -> string.

Lemma forallb_ext_in {A} (f g : A -> bool) (l : list A) :
  (forall a, In a l -> f a = g a) -> forallb f l = forallb g l.
Proof.
  induction l as [|a l IH]; intros H; simpl; [reflexivity|].
  rewrite (H a (or_introl eq_refl)), IH; [reflexivity|].
  intros b Hb; apply H; right; exact Hb.
Qed.

Lemma first_occurrence_app_lt p x d i :
  i < length p -> first_occurrence lower (p ++ [x]) d i = first_occurrence lower p d i.
Proof.
  intros Hi; unfold first_occurrence.
  rewrite app_nth1 by exact Hi.
  f_equal; apply forallb_ext_in; intros j Hj.
  apply in_seq in Hj.
  rewrite app_nth1 by lia; reflexivity.
Qed.

Lemma first_seen_snoc p x d :
  first_seen lower (p ++ [x]) d =
  first_seen lower p d ++ (if first_occurrence lower (p ++ [x]) d (length p) then [x] else []).
Proof.
  unfold first_seen.
  rewrite length_app; simpl length; rewrite Nat.add_1_r, seq_S, filter_app, map_app.
  f_equal.
  - rewrite (filter_ext_in _ (first_occurrence lower p d)).
    + apply map_ext_in; intros i Hi.
      apply filter_In in Hi as [Hi _]; apply in_seq in Hi.
      apply app_nth1; lia.
    + intros i Hi; apply in_seq in Hi; apply first_occurrence_app_lt; lia.
  - rewrite Nat.add_0_l; simpl filter.
    destruct (first_occurrence lower (p ++ [x]) d (length p)); simpl map;
      [rewrite nth_middle|]; reflexivity.
Qed.

Lemma first_occurrence_last p x d :
  first_occurrence lower (p ++ [x]) d (length p) = true <->
  truthy (title_key lower x) = true /\
  (forall j, j < length p -> title_key lower (nth j p d) <> title_key lower x).
Proof.
  unfold first_occurrence; rewrite nth_middle, andb_true_iff, forallb_forall.
  split; intros [Ht Hall]; split; try exact Ht.
  - intros j Hj Heq.
    specialize (Hall j (proj2 (in_seq _ _ _) (conj (Nat.le_0_l _) Hj))).
    rewrite app_nth1 in Hall by exact Hj.
    rewrite Heq, String.eqb_refl in Hall; discriminate.
  - intros j Hj; apply in_seq in Hj.
    rewrite app_nth1 by lia.
    apply negb_true_iff, String.eqb_neq, Hall; lia.
Qed.

Lemma in_keys_first_seen p d k :
  In k (map (title_key lower) (first_seen lower p d)) <->
  truthy k = true /\ exists j, j < length p /\ title_key lower (nth j p d) = k.
Proof.
  induction p as [|x p IH] using rev_ind.
  - simpl; split; [tauto|]. intros [_ [j [Hj _]]]; simpl in Hj; lia.
  - rewrite first_seen_snoc, map_app, in_app_iff, IH, length_app; simpl length.
    split.
    + intros [[Hk [j [Hj Heq]]] | Hin].
      * split; [exact Hk|]; exists j; split; [lia|].
        rewrite app_nth1 by exact Hj; exact Heq.
      * destruct (first_occurrence lower (p ++ [x]) d (length p)) eqn:Hf;
          simpl in Hin; [|contradiction].
        destruct Hin as [Hin|[]]; subst k.
        apply first_occurrence_last in Hf as [Ht _]; split; [exact Ht|].
        exists (length p); split; [lia|rewrite nth_middle; reflexivity].
    + intros [Hk [j [Hj Heq]]].
      destruct (existsb (fun i => String.eqb (title_key lower (nth i p d)) k) (seq 0 (length p)))
        eqn:Hex.
      * apply existsb_exists in Hex as [i [Hi Hieq]].
        apply in_seq in Hi; apply String.eqb_eq in Hieq.
        left; split; [exact Hk|]; exists i; split; [lia|exact Hieq].
      * right.
        assert (Hjp : j = length p).
        { destruct (Nat.eq_dec j (length p)) as [E|E]; [exact E|].
          exfalso.
          assert (Hin : In j (seq 0 (length p))) by (apply in_seq; lia).
          rewrite app_nth1 in Heq by lia.
          assert (existsb (fun i => String.eqb (title_key lower (nth i p d)) k)
                    (seq 0 (length p)) = true) as Ht.
          { apply existsb_exists; exists j; split; [exact Hin|].
            apply String.eqb_eq; exact Heq. }
          rewrite Ht in Hex; discriminate. }
        subst j; rewrite nth_middle in Heq; subst k.
        assert (Hf : first_occurrence lower (p ++ [x]) d (length p) = true).
        { apply first_occurrence_last; split; [exact Hk|].
          intros i Hi Heq.
          assert (existsb (fun i => String.eqb (title_key lower (nth i p d)) (title_key lower x))
                    (seq 0 (length p)) = true) as Ht.
          { apply existsb_exists; exists i; split; [apply in_seq; lia|].
            apply String.eqb_eq; exact Heq. }
          rewrite Ht in Hex; discriminate. }
        rewrite Hf; left; reflexivity.
Qed.

Lemma add_items_app st l1 l2 :
  add_items lower st (l1 ++ l2) = add_items lower (add_items lower st l1) l2.
Proof.
  revert st; induction l1 as [|it l1 IH]; intros st; simpl; [reflexivity|].
  destruct (_ && _); apply IH.
Qed.

Lemma fold_step_fetcher outs st :
  fold_left (step_fetcher lower) outs st = add_items lower st (fetched_items outs).
Proof.
  revert st; induction outs as [|o outs IH]; intros st; simpl; [reflexivity|].
  rewrite IH; destruct o; simpl; [rewrite add_items_app|]; reflexivity.
Qed.

Lemma existsb_rev {A} (f : A -> bool) l : existsb f (rev l) = existsb f l.
Proof.
  apply Bool.eq_iff_eq_true; rewrite !existsb_exists.
  split; intros [a [Ha Hf]]; exists a; split; try exact Hf;
    [apply in_rev | apply -> in_rev]; exact Ha.
Qed.

Lemma add_items_first_seen rest p st d :
  all_items st = first_seen lower p d ->
  seen_titles st = rev (map (title_key lower) (first_seen lower p d)) ->
  all_items (add_items lower st rest) = first_seen lower (p ++ rest) d.
Proof.
  revert p st; induction rest as [|x rest IH]; intros p st Ha Hs.
  - rewrite app_nil_r; exact Ha.
  - replace (p ++ x :: rest) with ((p ++ [x]) ++ rest) by (rewrite <- app_assoc; reflexivity).
    simpl add_items.
    assert (Hdec : truthy (title_key lower x) &&
                   negb (existsb (String.eqb (title_key lower x)) (seen_titles st)) =
                   first_occurrence lower (p ++ [x]) d (length p)).
    { apply Bool.eq_iff_eq_true.
      rewrite first_occurrence_last, andb_true_iff, negb_true_iff, Hs, existsb_rev.
      split; intros [Ht H]; split; try exact Ht.
      - intros j Hj Heq.
        assert (Hin : In (title_key lower x) (map (title_key lower) (first_seen lower p d))).
        { apply in_keys_first_seen; split; [exact Ht|]; exists j; split; assumption. }
        assert (existsb (String.eqb (title_key lower x)) (map (title_key lower) (first_seen lower p d)) = true)
          as E by (apply existsb_exists; exists (title_key lower x); split;
                   [exact Hin | apply String.eqb_refl]).
        rewrite E in H; discriminate.
      - destruct (existsb _ _) eqn:E; [|reflexivity].
        apply existsb_exists in E as [k [Hk Hkeq]].
        apply String.eqb_eq in Hkeq; subst k.
        apply in_keys_first_seen in Hk as [_ [j [Hj Heq]]].
        exfalso; exact (H j Hj Heq). }
    rewrite Hdec; destruct (first_occurrence lower (p ++ [x]) d (length p)) eqn:Hf;
      apply IH; rewrite first_seen_snoc, Hf; simpl; rewrite ?app_nil_r; try assumption.
    + rewrite Ha; reflexivity.
    + rewrite Hs, map_app, rev_app_distr; reflexivity.
Qed.

Lemma first_seen_keys_NoDup p d : NoDup (map (title_key lower) (first_seen lower p d)).
Proof.
  induction p as [|x p IH] using rev_ind; [constructor|].
  rewrite first_seen_snoc, map_app.
  destruct (first_occurrence lower (p ++ [x]) d (length p)) eqn:Hf; simpl;
    [|rewrite app_nil_r; exact IH].
  apply NoDup_app; [exact IH | constructor; [intros []|constructor] |].
  intros k Hk [Hx|[]]; subst k.
  apply in_keys_first_seen in Hk as [_ [j [Hj Heq]]].
  apply first_occurrence_last in Hf as [_ Hf]; exact (Hf j Hj Heq).
Qed.

Lemma aggregate_news_from_first_seen outs d :
  aggregate_news_from lower outs = first_seen lower (fetched_items outs) d.
Proof.
  unfold aggregate_news_from; rewrite fold_step_fetcher.
  apply (add_items_first_seen _ []); reflexivity.
Qed.

End Dedup.

(** Claim C1, counterexample: [blank_a] and [blank_b] have equal normalised
    titles (both empty), yet the output of [aggregate_news] does not contain
    the first-encountered one: it is empty.  The titles are ASCII, so
    [ascii_lower] is [str.lower] on them. *)
Lemma C1_blank_titles_counterexample :
  title_key ascii_lower blank_a = title_key ascii_lower blank_b /\
  aggregate_news_from ascii_lower [Fetched [blank_a; blank_b]] = [] /\
  ~ In blank_a (aggregate_news_from ascii_lower [Fetched [blank_a; blank_b]]).
Proof.
  split; [reflexivity|]. split; [reflexivity|].
  vm_compute; intros [].
Qed.

(** Claim C1 (amended): the output of [aggregate_news] is exactly the fetched
    items, in the order the fetchers produced them, whose normalised title
    ([title.lower().strip()]) is non-empty and differs from that of every
    earlier fetched item; in particular no two output items share a
    normalised title.  This holds whatever [str.lower] does. *)
Theorem aggregate_news_first_seen_dedup (lower : string -> string)
    (outs : list fetch_outcome) (d : item) :
  aggregate_news_from lower outs = first_seen lower (fetched_items outs) d /\
  NoDup (map (title_key lower) (aggregate_news_from lower outs)).
Proof.
  rewrite (aggregate_news_from_first_seen lower outs d).
  split; [reflexivity | apply first_seen_keys_NoDup].
Qed.

(** Claim C10: no item of [aggregate_news]'s output has a title that
    normalises to the empty string; and, as [str.lower] maps a string of
    whitespace to a string of whitespace, no item has an empty or
    whitespace-only title.  Such items are dropped whatever else was
    fetched. *)
Theorem aggregate_news_drops_blank_titles (lower : string -> string)
    (outs : list fetch_outcome) :
  Forall (fun it => title_key lower it <> EmptyString) (aggregate_news_from lower outs) /\
  ((forall s, strip s = EmptyString -> strip (lower s) = EmptyString) ->
   Forall (fun it => strip (title it) <> EmptyString) (aggregate_news_from lower outs)).
Proof.
  assert (H : Forall (fun it => title_key lower it <> EmptyString) (aggregate_news_from lower outs)).
  { rewrite (aggregate_news_from_first_seen lower outs blank_a).
    unfold first_seen; apply Forall_forall; intros it Hit.
    apply in_map_iff in Hit as [i [Hi Hin]]; subst it.
    apply filter_In in Hin as [_ Hf].
    unfold first_occurrence in Hf; apply andb_true_iff in Hf as [Ht _].
    intros E; rewrite E in Ht; discriminate. }
  split; [exact H|].
  intros Hws; eapply Forall_impl; [|exact H].
  intros it Hk Hs; apply Hk; unfold title_key; apply Hws, Hs.
Qed.

(** [aggregate_news_drops_blank_titles], exercised on a fetcher that returns
    the two blank items and a titled one, with the identity as the case
    map. *)
Lemma aggregate_news_drops_blank_titles_witness :
  aggregate_news_from (fun s => s) [Fetched [blank_a; blank_b; titled_c]] =
    [titled_c] /\
  Forall (fun it => strip (title it) <> EmptyString)
    (aggregate_news_from (fun s => s) [Fetched [blank_a; blank_b; titled_c]]).
Proof.
  split; [vm_compute; reflexivity|].
  apply (proj2 (aggregate_news_drops_blank_titles (fun s => s) _)).
  intros s Hs; exact Hs.
Defined.

End AggregatorProofs.

(** ** Feed fetchers and the look-back window *)

Module FeedProofs.
Import Aggregator AggregatorProofs.

Lemma Forall_firstn {A} (P : A -> Prop) n l : Forall P l -> Forall P (firstn n l).
Proof.
  intros H; rewrite <- (firstn_skipn n l) in H; apply Forall_app in H; apply H.
Qed.

Lemma too_old_false_in_window now max_age_days e :
  too_old now max_age_days e = false -> in_window now max_age_days e.
Proof.
  unfold too_old, in_window; intros H t Ht.
  apply negb_false_iff, Qle_bool_iff in H.
  unfold age_days in H; rewrite Ht in H.
  unfold Qle in H; simpl in H; lia.
Qed.

Lemma feed_loop_Forall get_text now (P : item -> Prop) src max_age_days limit es items :
  Forall P items ->
  (forall e, In e es -> too_old now max_age_days e = false ->
             P (item_of_entry get_text src e)) ->
  Forall P (feed_loop get_text now src max_age_days limit es items).
Proof.
  revert items; induction es as [|e es IH]; intros items Hitems He; simpl; [exact Hitems|].
  assert (He' : forall e', In e' es -> too_old now max_age_days e' = false ->
                           P (item_of_entry get_text src e'))
    by (intros; apply He; [right|]; assumption).
  destruct (too_old now max_age_days e) eqn:Hold; [apply IH; assumption|].
  assert (Hnext : Forall P (items ++ [item_of_entry get_text src e])).
  { apply Forall_app; split; [exact Hitems|].
    constructor; [apply He; [left; reflexivity | exact Hold] | constructor]. }
  destruct (limit <=? length (items ++ [item_of_entry get_text src e]));
    [exact Hnext | apply IH; assumption].
Qed.

Lemma firstn_In_aux {A} n (l : list A) x : In x (firstn n l) -> In x l.
Proof.
  intros H; rewrite <- (firstn_skipn n l); apply in_or_app; left; exact H.
Qed.

(** Every item [_fetch_feed] returns was built from an entry of the parsed
    feed that lies inside the window. *)
Lemma fetch_feed_from_window get_text parse now u max_age_days limit :
  Forall (fun it => exists f e, parse u = Some f /\ In e (entries f) /\
                      in_window now max_age_days e /\
                      it = item_of_entry get_text (get_or (feed_title f) u) e)
         (fetch_feed get_text parse now u max_age_days limit).
Proof.
  unfold fetch_feed; destruct (parse u) as [f|] eqn:Hp; [|constructor].
  apply feed_loop_Forall; [constructor|].
  intros e He Hold; exists f, e; split; [reflexivity|]; split.
  - apply (firstn_In_aux (limit * 2)); exact He.
  - split; [apply too_old_false_in_window; exact Hold | reflexivity].
Qed.

Lemma fetch_feed_recent get_text parse now u max_age_days limit :
  Forall (from_recent_entry get_text parse now max_age_days)
         (fetch_feed get_text parse now u max_age_days limit).
Proof.
  eapply Forall_impl; [|apply fetch_feed_from_window].
  intros it [f [e [Hp [He [Hw Heq]]]]].
  exists u, f, e, (get_or (feed_title f) u); repeat split; assumption.
Qed.

Lemma from_recent_entry_set_source get_text parse now max_age_days label it :
  from_recent_entry get_text parse now max_age_days it ->
  from_recent_entry get_text parse now max_age_days (set_source label it).
Proof.
  intros [u [f [e [src [Hp [He [Hw Heq]]]]]]]; subst it.
  exists u, f, e, label; repeat split; assumption.
Qed.

Lemma arxiv_collect_Forall (P : item -> Prop) label items seen all :
  (forall it, P it -> P (set_source label it)) ->
  Forall P items -> Forall P all -> Forall P (snd (arxiv_collect label items seen all)).
Proof.
  intros Hset; revert seen all; induction items as [|it items IH];
    intros seen all Hitems Hall; simpl; [exact Hall|].
  inversion Hitems as [|? ? Hit Hrest]; subst.
  destruct (existsb (String.eqb (url it)) seen); apply IH; try assumption.
  apply Forall_app; split; [exact Hall|]; constructor; [apply Hset, Hit | constructor].
Qed.

Lemma fetch_arxiv_recent get_text parse now max_age_days :
  Forall (from_recent_entry get_text parse now max_age_days)
         (fetch_arxiv get_text parse now max_age_days).
Proof.
  unfold fetch_arxiv; apply Forall_firstn.
  assert (Hgen : forall fls (acc : list string * list item),
             Forall (from_recent_entry get_text parse now max_age_days) (snd acc) ->
             Forall (from_recent_entry get_text parse now max_age_days)
               (snd (fold_left
                       (fun acc fl =>
                          arxiv_collect (snd fl)
                            (fetch_feed get_text parse now (fst fl) max_age_days 15)
                            (fst acc) (snd acc)) fls acc))).
  { induction fls as [|fl fls IH]; intros acc Hacc; simpl; [exact Hacc|].
    apply IH, arxiv_collect_Forall;
      [intros; apply from_recent_entry_set_source; assumption
      | apply fetch_feed_recent | exact Hacc]. }
  apply Hgen; constructor.
Qed.

Lemma fetch_filtered_recent lower get_text parse now u feed_limit kws limit max_age_days :
  Forall (from_recent_entry get_text parse now max_age_days)
         (fetch_filtered lower get_text parse now u feed_limit kws limit max_age_days).
Proof.
  unfold fetch_filtered; apply Forall_firstn.
  apply Forall_forall; intros it Hit; apply filter_In in Hit as [Hit _].
  revert it Hit; apply Forall_forall, fetch_feed_recent.
Qed.

Lemma aggregate_news_from_Forall lower (P : item -> Prop) outs :
  Forall P (fetched_items outs) -> Forall P (aggregate_news_from lower outs).
Proof.
  intros H; rewrite (aggregate_news_from_first_seen lower outs blank_a).
  unfold first_seen; apply Forall_forall; intros it Hit.
  apply in_map_iff in Hit as [i [Hi Hin]]; subst it.
  apply filter_In in Hin as [Hin _]; apply in_seq in Hin.
  eapply Forall_forall; [exact H | apply nth_In; lia].
Qed.

(** Claim C9: for every feed and every window, [_fetch_feed] returns only
    items built from entries of the parsed feed whose publish time, when
    known, is at most [max_age_days] days before now; hence every item of
    [aggregate_news]'s output that does not come from the Hacker News
    fetcher was built from such an entry. *)
Theorem feed_items_within_window lower get_text parse now hn max_age_days :
  (forall u limit,
     Forall (fun it => exists f e, parse u = Some f /\ In e (entries f) /\
                         in_window now max_age_days e /\
                         it = item_of_entry get_text (get_or (feed_title f) u) e)
            (fetch_feed get_text parse now u max_age_days limit)) /\
  Forall (fun it => In it hn \/ from_recent_entry get_text parse now max_age_days it)
         (aggregate_news lower get_text parse now hn max_age_days).
Proof.
  split; [intros; apply fetch_feed_from_window|].
  unfold aggregate_news; apply aggregate_news_from_Forall; simpl.
  rewrite app_nil_r.
  repeat (apply Forall_app; split).
  - apply Forall_forall; intros; left; assumption.
  - eapply Forall_impl; [|apply fetch_arxiv_recent]; intros; right; assumption.
  - eapply Forall_impl; [|apply fetch_filtered_recent]; intros; right; assumption.
  - eapply Forall_impl; [|apply fetch_filtered_recent]; intros; right; assumption.
  - eapply Forall_impl; [|apply fetch_filtered_recent]; intros; right; assumption.
  - eapply Forall_impl; [|apply fetch_filtered_recent]; intros; right; assumption.
  - eapply Forall_impl; [|apply Forall_firstn, fetch_feed_recent]; intros; right; assumption.
Qed.

End FeedProofs.

(** ** Summarizer *)

Module SummarizerProofs.
Import Summarizer.
Local Open Scope string_scope.

Lemma dict_get_set d k v k' :
  dict_get (dict_set d k v) k' = if String.eqb k' k then Some v else dict_get d k'.
Proof.
  induction d as [|[k0 v0] d IH]; simpl.
  - destruct (String.eqb k' k); reflexivity.
  - destruct (String.eqb k k0) eqn:E; simpl.
    + apply String.eqb_eq in E; subst k0.
      destruct (String.eqb k' k); reflexivity.
    + rewrite IH. destruct (String.eqb k' k0) eqn:E'; [|reflexivity].
      apply String.eqb_eq in E'; subst k0.
      destruct (String.eqb k' k) eqn:E''; [|reflexivity].
      apply String.eqb_eq in E''; subst k'; rewrite String.eqb_refl in E; discriminate.
Qed.

Lemma ensure_categories_get_gen L c0 k :
  dict_get (fold_left (fun c cat => if dict_mem c cat then c else dict_set c cat (JArr []))
              L c0) k =
  match dict_get c0 k with
  | Some v => Some v
  | None => if existsb (String.eqb k) L then Some (JArr []) else None
  end.
Proof.
  revert c0; induction L as [|cat L IH]; intros c0; simpl.
  - destruct (dict_get c0 k); reflexivity.
  - rewrite IH; unfold dict_mem.
    destruct (dict_get c0 cat) eqn:Hcat.
    + destruct (dict_get c0 k) eqn:Hk; [reflexivity|].
      destruct (String.eqb k cat) eqn:E; simpl; [|reflexivity].
      apply String.eqb_eq in E; subst; congruence.
    + rewrite dict_get_set.
      destruct (String.eqb k cat) eqn:E; simpl.
      * apply String.eqb_eq in E; subst; rewrite Hcat; reflexivity.
      * destruct (dict_get c0 k); reflexivity.
Qed.

Lemma ensure_categories_get c0 k :
  dict_get (ensure_categories c0) k =
  match dict_get c0 k with
  | Some v => Some v
  | None => if existsb (String.eqb k) CATEGORIES then Some (JArr []) else None
  end.
Proof. apply ensure_categories_get_gen. Qed.

Lemma map_r_Forall2 {A B} (f : A -> result B) l l' :
  map_r f l = Ok l' -> Forall2 (fun a b => f a = Ok b) l l'.
Proof.
  revert l'; induction l as [|a l IH]; intros l' H; simpl in H.
  - injection H as <-; constructor.
  - destruct (f a) as [b|e] eqn:Hf; [|discriminate]; simpl in H.
    destruct (map_r f l) as [bs|e] eqn:Hr; [|discriminate]; simpl in H.
    injection H as <-; constructor; [exact Hf | apply IH; reflexivity].
Qed.

Lemma dict_get_map_r l l' k v :
  Forall2 (fun a b => (v' <- default_cat_items (snd a) ;; Ok (fst a, v')) = Ok b) l l' ->
  dict_get l k = Some v ->
  exists v', dict_get l' k = Some v' /\ default_cat_items v = Ok v'.
Proof.
  intros H; induction H as [|[k0 v0] [k1 v1] l l' Hab Hrest IH]; simpl; [discriminate|].
  simpl in Hab.
  destruct (default_cat_items v0) as [w|e] eqn:Hd; simpl in Hab; [|discriminate].
  inversion Hab; subst k1 v1.
  destruct (String.eqb k k0); [|exact IH].
  intros E; injection E as <-; exists w; split; [reflexivity | exact Hd].
Qed.

Lemma in_categories_existsb c : In c CATEGORIES -> existsb (String.eqb c) CATEGORIES = true.
Proof.
  intros H; apply existsb_exists; exists c; split; [exact H | apply String.eqb_refl].
Qed.

(** Claim C2: whenever the validation step returns (rather than raising on a
    story that is not a dict), its ["categories"] entry is a dict that has
    every one of the 7 fixed category names as a key, maps each of them that
    was missing from the input to [[]], and keeps every key the input's
    categories dict had. *)
Theorem validate_result_categories_complete fs out :
  validate_result (JObj fs) = Ok out ->
  exists fs' cats,
    out = JObj fs' /\ dict_get fs' "categories" = Some (JObj cats) /\
    (forall c, In c CATEGORIES -> dict_mem cats c = true) /\
    (forall c, In c CATEGORIES -> dict_mem (input_categories fs) c = false ->
               dict_get cats c = Some (JArr [])) /\
    (forall k, dict_mem (input_categories fs) k = true -> dict_mem cats k = true).
Proof.
  intros H; unfold validate_result in H.
  set (fs1 := if dict_mem fs "executive_summary" then fs
              else dict_set fs "executive_summary" (JStr "No summary available.")) in H.
  set (fs2 := match dict_get fs1 "top_stories" with
              | Some (JArr _) => fs1
              | _ => dict_set fs1 "top_stories" (JArr [])
              end) in H.
  assert (Hc : dict_get fs2 "categories" = dict_get fs "categories").
  { assert (Hc1 : dict_get fs1 "categories" = dict_get fs "categories").
    { unfold fs1; destruct (dict_mem fs "executive_summary");
        [reflexivity | rewrite dict_get_set; reflexivity]. }
    unfold fs2; destruct (dict_get fs1 "top_stories") as [[]|];
      rewrite ?dict_get_set; exact Hc1. }
  rewrite Hc in H; fold (input_categories fs) in H.
  set (cats1 := ensure_categories (input_categories fs)) in H.
  destruct (map_r (default_story "reason") _) as [tops'|e]; simpl in H; [|discriminate].
  destruct (map_r _ cats1) as [cats2|e] eqn:Hcats; simpl in H; [|discriminate].
  injection H as <-.
  apply map_r_Forall2 in Hcats.
  exists (dict_set (dict_set fs2 "top_stories" (JArr tops')) "categories" (JObj cats2)), cats2.
  split; [reflexivity|]. split; [rewrite dict_get_set; reflexivity|].
  repeat split.
  - intros c Hin.
    assert (Hg : exists v, dict_get cats1 c = Some v).
    { unfold cats1; rewrite ensure_categories_get, in_categories_existsb by exact Hin.
      destruct (dict_get (input_categories fs) c); eexists; reflexivity. }
    destruct Hg as [v Hg].
    destruct (dict_get_map_r _ _ _ _ Hcats Hg) as [v' [Hv' _]].
    unfold dict_mem; rewrite Hv'; reflexivity.
  - intros c Hin Hmiss.
    assert (Hg : dict_get cats1 c = Some (JArr [])).
    { unfold cats1; rewrite ensure_categories_get, in_categories_existsb by exact Hin.
      unfold dict_mem in Hmiss; destruct (dict_get (input_categories fs) c);
        [discriminate | reflexivity]. }
    destruct (dict_get_map_r _ _ _ _ Hcats Hg) as [v' [Hv' Hd]].
    simpl in Hd; injection Hd as <-; exact Hv'.
  - intros k Hk; unfold dict_mem in Hk.
    destruct (dict_get (input_categories fs) k) as [v|] eqn:Hg; [|discriminate].
    assert (Hg1 : dict_get cats1 k = Some v)
      by (unfold cats1; rewrite ensure_categories_get, Hg; reflexivity).
    destruct (dict_get_map_r _ _ _ _ Hcats Hg1) as [v' [Hv' _]].
    unfold dict_mem; rewrite Hv'; reflexivity.
Qed.

(** Claim C2, exercised on [sample_response]. *)
Lemma validate_result_categories_complete_witness :
  exists out, validate_result (JObj sample_response) = Ok out /\
  exists fs' cats,
    out = JObj fs' /\ dict_get fs' "categories" = Some (JObj cats) /\
    (forall c, In c CATEGORIES -> dict_mem cats c = true) /\
    (forall c, In c CATEGORIES -> dict_mem (input_categories sample_response) c = false ->
               dict_get cats c = Some (JArr [])) /\
    (forall k, dict_mem (input_categories sample_response) k = true -> dict_mem cats k = true).
Proof.
  eexists; split.
  - compute; reflexivity.
  - apply validate_result_categories_complete; compute; reflexivity.
Defined.

(** The validation step is partial: a category value that cannot be
    iterated makes it raise, and then no Briefing is produced at all. *)
Example validate_result_raises_on_number :
  validate_result (JObj [("categories", JObj [("Hardware", JNum 5)])]) = Raise TypeError.
Proof. reflexivity. Qed.

(** Claim C3: the fallback Briefing is a function of the item list alone: a
    fixed executive summary, the first 5 items as top stories whose [reason]
    is the item's summary cut to 150 characters, and the 7 categories in
    order, all empty except the catch-all one, which holds the title, url,
    source and summary of the first 40 items unchanged.  Every run whose
    response fails to parse returns exactly this value, whatever the
    response, model or key. *)
Theorem fallback_result_deterministic items :
  (exists cats,
     fallback_result items =
       JObj [("executive_summary", JStr fallback_summary);
             ("top_stories", JArr (map top_story (firstn 5 items)));
             ("categories", JObj cats)] /\
     map fst cats = CATEGORIES /\
     dict_get cats "Other AI & Tech News" = Some (JArr (map category_story (firstn 40 items))) /\
     (forall c, In c CATEGORIES -> c <> "Other AI & Tech News" ->
                dict_get cats c = Some (JArr []))) /\
  (forall json_loads api env_key api_key model k text,
     items <> [] ->
     or_str api_key env_key = Some k -> truthy k = true ->
     api (mk_request model (length items) (build_news_text items)) = ApiText text ->
     json_loads (strip_fences (strip text)) = DecodeError ->
     snd (categorize_and_summarize json_loads api env_key api_key model items) =
       Ok (fallback_result items)).
Proof.
  split.
  - eexists; split; [reflexivity|].
    split; [reflexivity|]. split; [reflexivity|].
    intros c Hin Hne; simpl in Hin.
    repeat (destruct Hin as [<-|Hin]; [reflexivity|]).
    destruct Hin as [<-|[]]; exfalso; apply Hne; reflexivity.
  - intros json_loads api env_key api_key model k text Hne Hk Ht Hapi Hload.
    unfold categorize_and_summarize.
    destruct items as [|it rest]; [exfalso; apply Hne; reflexivity|].
    rewrite Hk, Ht, Hapi, Hload; reflexivity.
Qed.

(** Claim C3, exercised on [sample_items] with a response that is not JSON. *)
Lemma fallback_result_deterministic_witness :
  snd (categorize_and_summarize (fun _ => DecodeError) (fun _ => ApiText "Sorry, no JSON today.")
         None (Some "sk-test") "claude-opus-4-6" sample_items) =
  Ok (fallback_result sample_items).
Proof.
  apply (proj2 (fallback_result_deterministic sample_items)
           (fun _ => DecodeError) (fun _ => ApiText "Sorry, no JSON today.")
           None (Some "sk-test") "claude-opus-4-6" "sk-test" "Sorry, no JSON today.");
    try reflexivity.
  discriminate.
Defined.

(** Claim C4, counterexample: with no items the returned Briefing's
    executive summary is a non-empty placeholder sentence. *)
Lemma C4_placeholder_summary_counterexample :
  exists fs s,
    snd (categorize_and_summarize (fun _ => DecodeError) (fun _ => ApiFailed) None None
           "claude-opus-4-6" []) = Ok (JObj fs) /\
    dict_get fs "executive_summary" = Some (JStr s) /\ s <> EmptyString.
Proof.
  eexists; eexists; split; [reflexivity|]; split; [reflexivity|]; discriminate.
Qed.

(** Claim C4 (amended): with an empty item list the Summarizer Client sends
    no request to the capability (whatever the key configuration) and
    returns the Briefing with executive summary "No news items were
    available this week.", no top stories and each of the 7 categories, in
    order, mapped to [[]]. *)
Theorem categorize_and_summarize_empty json_loads api env_key api_key model :
  categorize_and_summarize json_loads api env_key api_key model [] =
  ([], Ok (JObj [("executive_summary", JStr "No news items were available this week.");
                 ("top_stories", JArr []);
                 ("categories", JObj (map (fun c => (c, JArr [])) CATEGORIES))])).
Proof. reflexivity. Qed.

End SummarizerProofs.

(** ** Document Renderer *)

Module RendererProofs.
Import Renderer.
Local Open Scope string_scope.

Lemma py_len_app a b : py_len (a ++ b) = py_len a + py_len b.
Proof.
  induction a as [|c a IH]; simpl; [reflexivity|].
  rewrite IH; destruct (is_cont c); reflexivity.
Qed.

Lemma py_len_take n s : py_len (py_take n s) = Nat.min n (py_len s).
Proof.
  revert n; induction s as [|c s IH]; intros n; simpl.
  - rewrite Nat.min_0_r; reflexivity.
  - cbn [py_take]; destruct (is_cont c) eqn:E.
    + cbn [py_len]; rewrite E, IH; reflexivity.
    + destruct n as [|m]; cbn [py_len]; rewrite ?E; [reflexivity|].
      rewrite IH; reflexivity.
Qed.

Lemma py_take_all n s : py_len s <= n -> py_take n s = s.
Proof.
  revert n; induction s as [|c s IH]; intros n H; [reflexivity|].
  cbn [py_take]; cbn [py_len] in H; destruct (is_cont c) eqn:E.
  - rewrite IH by exact H; reflexivity.
  - destruct n as [|m]; [lia|]; rewrite IH by lia; reflexivity.
Qed.

Lemma truncate_display_displayed n raw : displayed n raw (truncate_display n raw).
Proof.
  unfold truncate_display, displayed.
  destruct (Nat.ltb_spec n (py_len raw)) as [Hlt|Hle].
  - right; split; [exact Hlt|]; split; [reflexivity|].
    rewrite py_len_app, py_len_take; simpl; lia.
  - left; split; [exact Hle|].
    rewrite py_take_all by exact Hle.
    clear; induction raw as [|c raw IH]; simpl; [reflexivity | rewrite IH; reflexivity].
Qed.

(** Claim C5, counterexample: a 130-character top-story title is rendered
    with all 130 characters, and a 130-character category-story title is
    rendered as 120 characters plus an ellipsis, 121 characters. *)
Lemma C5_long_titles_counterexample :
  (exists t, In t (map fst (rendered_top_stories long_briefing)) /\ py_len t = 130) /\
  (exists t, In t (map fst (rendered_category_cards long_briefing)) /\ py_len t = 121).
Proof.
  split.
  - exists long_title; split; [left; reflexivity | vm_compute; reflexivity].
  - eexists; split; [left; reflexivity | vm_compute; reflexivity].
Qed.

(** Claim C5 (amended): top-story titles (of the first 5 top stories) are
    rendered as given, without truncation; on the category pages each card
    shows the story's title as is when it has at most 120 characters and
    otherwise its first 120 characters followed by an ellipsis (121
    characters), and likewise its summary with the limit 280 (at most 281
    characters). *)
Theorem rendered_story_text_truncation (b : briefing) :
  map fst (rendered_top_stories b) =
    map (fun st => story_get st "title" "Untitled") (firstn 5 (top_stories b)) /\
  Forall2 (fun st card =>
             displayed 120 (story_get st "title" "Untitled") (fst card) /\
             displayed 280 (story_get st "summary" EmptyString) (snd card))
          (category_stories b) (rendered_category_cards b).
Proof.
  split.
  - unfold rendered_top_stories; rewrite map_map; reflexivity.
  - unfold rendered_category_cards; induction (category_stories b) as [|st l IH];
      constructor; [|exact IH].
    split; apply truncate_display_displayed.
Qed.

End RendererProofs.

(** ** Delivery *)

Module DeliveryProofs.
Import Delivery.

Lemma send_attempts_connects world m a fuel last :
  length (filter is_connect (fst (send_attempts world m a fuel last))) <= fuel.
Proof.
  revert a last; induction fuel as [|fuel IH]; intros a last; simpl; [lia|].
  destruct (world a); simpl; try lia.
  rewrite filter_app.
  destruct (a <? m); simpl; rewrite ?length_app; specialize (IH (S a) (Some (TransportError id))); lia.
Qed.

(** Claim C6: with the default [max_retries=3], the send step opens at most
    3 connections; transient SMTP failures on attempts 1 and 2 followed by
    success give one [sendmail], preceded by sleeps of 2 and then 4 seconds;
    an authentication failure on attempt [k] is raised at once, with no
    further attempt and no further sleep; three transient failures raise
    the third one's error. *)
Theorem send_retry_backoff :
  (forall world, length (filter is_connect (fst (send_with_retry world 3))) <= 3) /\
  (forall world e1 e2,
     world 1 = SmtpFail e1 -> world 2 = SmtpFail e2 -> world 3 = SendOk ->
     send_with_retry world 3 =
       ([EvConnect 1; EvSleep 2; EvConnect 2; EvSleep 4; EvConnect 3; EvSent 3], None)) /\
  (forall world k,
     1 <= k <= 3 ->
     (forall j, 1 <= j < k -> exists e, world j = SmtpFail e) ->
     world k = SmtpAuthFail ->
     send_with_retry world 3 =
       (flat_map (fun j => [EvConnect j; EvSleep (2 ^ j)]) (seq 1 (k - 1)) ++ [EvConnect k],
        Some AuthError)) /\
  (forall world e1 e2 e3,
     world 1 = SmtpFail e1 -> world 2 = SmtpFail e2 -> world 3 = SmtpFail e3 ->
     send_with_retry world 3 =
       ([EvConnect 1; EvSleep 2; EvConnect 2; EvSleep 4; EvConnect 3],
        Some (TransportError e3))).
Proof.
  split; [intros world; apply send_attempts_connects|].
  split; [intros world e1 e2 H1 H2 H3; unfold send_with_retry; simpl;
          rewrite H1; simpl; rewrite H2; simpl; rewrite H3; reflexivity|].
  split.
  - intros world k Hk Hbefore Hauth; unfold send_with_retry.
    assert (Hk' : k = 1 \/ k = 2 \/ k = 3) by lia.
    destruct Hk' as [ -> | [ -> | -> ] ]; simpl.
    + rewrite Hauth; reflexivity.
    + destruct (Hbefore 1 ltac:(lia)) as [e1 H1]; rewrite H1; simpl.
      rewrite Hauth; reflexivity.
    + destruct (Hbefore 1 ltac:(lia)) as [e1 H1]; rewrite H1; simpl.
      destruct (Hbefore 2 ltac:(lia)) as [e2 H2]; rewrite H2; simpl.
      rewrite Hauth; reflexivity.
  - intros world e1 e2 e3 H1 H2 H3; unfold send_with_retry; simpl.
    rewrite H1; simpl; rewrite H2; simpl; rewrite H3; reflexivity.
Qed.

(** Claim C6, exercised: [flaky_world] fails twice then succeeds; a world
    that rejects the credentials on the first attempt; a world that always
    fails. *)
Lemma send_retry_backoff_witness :
  send_with_retry flaky_world 3 =
    ([EvConnect 1; EvSleep 2; EvConnect 2; EvSleep 4; EvConnect 3; EvSent 3], None) /\
  send_with_retry (fun _ => SmtpAuthFail) 3 = ([EvConnect 1], Some AuthError) /\
  send_with_retry (fun n => SmtpFail n) 3 =
    ([EvConnect 1; EvSleep 2; EvConnect 2; EvSleep 4; EvConnect 3], Some (TransportError 3)).
Proof.
  split; [|split].
  - exact (proj1 (proj2 send_retry_backoff) flaky_world 1 2 eq_refl eq_refl eq_refl).
  - exact (proj1 (proj2 (proj2 send_retry_backoff)) (fun _ => SmtpAuthFail) 1
             ltac:(lia) (fun j Hj => False_ind _ (Nat.lt_irrefl 1 (Nat.le_lt_trans _ _ _ (proj1 Hj) (proj2 Hj))))
             eq_refl).
  - exact (proj2 (proj2 (proj2 send_retry_backoff)) (fun n => SmtpFail n) 1 2 3
             eq_refl eq_refl eq_refl).
Defined.

(** A connection-level error that is not an [SMTPException] (such as an
    [OSError]) is not retried either. *)
Example send_socket_error_not_retried :
  send_with_retry (fun _ => SocketFail) 3 = ([EvConnect 1], Some SocketError).
Proof. reflexivity. Qed.

(** Claim C8: when one of the three resolved configuration values
    (recipient, sender, app password: the argument, else the environment
    variable) is absent or empty, [send_briefing] performs no network
    event and raises an error whose message lists exactly the names of the
    missing values. *)
Theorem send_briefing_missing_config env recipient_email sender_email gmail_app_password
    max_retries world :
  let cfg := email_config env recipient_email sender_email gmail_app_password in
  missing_config cfg <> [] ->
  send_briefing env recipient_email sender_email gmail_app_password max_retries world =
    ([], Some (ConfigError ("Missing email configuration: " ++
                            String.concat ", " (missing_config cfg))%string)) /\
  (forall name, In name (missing_config cfg) <->
                exists v, In (name, v) cfg /\ opt_truthy v = false).
Proof.
  intros cfg Hmiss; split.
  - unfold send_briefing; fold cfg.
    destruct (forallb (fun nv => opt_truthy (snd nv)) cfg) eqn:Hall; [|reflexivity].
    exfalso; apply Hmiss.
    unfold missing_config.
    rewrite forallb_forall in Hall.
    destruct (filter (fun nv => negb (opt_truthy (snd nv))) cfg) as [|nv l] eqn:Hf;
      [reflexivity|].
    assert (Hin : In nv (filter (fun nv => negb (opt_truthy (snd nv))) cfg))
      by (rewrite Hf; left; reflexivity).
    apply filter_In in Hin as [Hin Hneg].
    rewrite (Hall nv Hin) in Hneg; discriminate.
  - intros name; unfold missing_config; rewrite in_map_iff; split.
    + intros [[n v] [Hn Hin]]; simpl in Hn; subst n.
      apply filter_In in Hin as [Hin Hneg]; simpl in Hneg.
      exists v; split; [exact Hin | apply negb_true_iff; exact Hneg].
    + intros [v [Hin Hv]]; exists (name, v); split; [reflexivity|].
      apply filter_In; split; [exact Hin|]; simpl; rewrite Hv; reflexivity.
Qed.

(** Claim C8, exercised with only the recipient configured. *)
Lemma send_briefing_missing_config_witness :
  send_briefing (fun k => if String.eqb k "RECIPIENT_EMAIL" then Some "me@example.com" else None)%string
                None None None 3 flaky_world =
    ([], Some (ConfigError "Missing email configuration: SENDER_EMAIL, GMAIL_APP_PASSWORD"%string)).
Proof.
  exact (proj1 (send_briefing_missing_config
                  (fun k => if String.eqb k "RECIPIENT_EMAIL" then Some "me@example.com" else None)%string
                  None None None 3 flaky_world ltac:(discriminate))).
Defined.

End DeliveryProofs.

(** ** Entry point *)

Module MainProofs.
Import Main.

(** Claim C7: when [aggregate_news] returns fewer stories than
    [--min-stories], [main] exits with status 1 before any pipeline step:
    no request reaches the summarisation capability and
    [categorize_and_summarize] is not called. *)
Theorem main_aborts_below_minimum json_loads api env_key generate_pdf_ok send_briefing_ok
    (a : args) (news_items : list item) :
  (Z.of_nat (length news_items) < min_stories a)%Z ->
  main json_loads api env_key generate_pdf_ok send_briefing_ok a (Some news_items) =
    (1%Z, [], []).
Proof.
  intros H; unfold main.
  apply Z.ltb_lt in H; rewrite H; reflexivity.
Qed.

(** Claim C7, exercised with 3 aggregated items and the default minimum of
    10. *)
Lemma main_aborts_below_minimum_witness :
  main (fun _ => Summarizer.DecodeError) (fun _ => Summarizer.ApiFailed) (Some "sk-test"%string)
       (fun _ => true) (fun _ => true) default_args
       (Some (Summarizer.sample_items ++ [Aggregator.blank_a])) = (1%Z, [], []).
Proof.
  apply main_aborts_below_minimum; vm_compute; reflexivity.
Defined.

End MainProofs.

(** * Further properties of the pipeline *)

(** ** Feed text cleaning and feed limits *)

Module FeedExtraProofs.
Import Aggregator AggregatorProofs FeedProofs RendererProofs.

Lemma cps_wf_forallb l : forallb cp_ok l = true -> cps_wf l = true.
Proof.
  destruct l as [|[|c r] xs]; simpl; intros H; [reflexivity | discriminate|].
  apply andb_true_iff in H as [H1 H2]; apply andb_true_iff in H1 as [_ H1].
  rewrite H1, H2; reflexivity.
Qed.

Lemma cps_cons c r :
  cps (String c r) =
  match cps r with
  | (String d _ as x) :: xs =>
      if is_cont d then String c x :: xs else String c EmptyString :: x :: xs
  | xs => String c EmptyString :: xs
  end.
Proof. reflexivity. Qed.

Lemma cps_cons_chunk c y s :
  all_cont y = true -> forallb cp_ok (cps s) = true ->
  cps (String c y ++ s) = String c y :: cps s.
Proof.
  revert c; induction y as [|d y IH]; intros c Hy Hs.
  - simpl append; rewrite cps_cons.
    destruct (cps s) as [|[|d z] xs]; simpl in Hs |- *; [reflexivity | discriminate|].
    apply andb_true_iff in Hs as [Hd _]; apply andb_true_iff in Hd as [Hd _].
    apply negb_true_iff in Hd; rewrite Hd; reflexivity.
  - simpl in Hy; apply andb_true_iff in Hy as [Hd Hy].
    change (String c (String d y) ++ s)%string with (String c (String d y ++ s)).
    rewrite cps_cons, (IH d Hy Hs), Hd; reflexivity.
Qed.

Lemma cps_cat l : cps_wf l = true -> cps (cat l) = l.
Proof.
  induction l as [|x r IH]; intros H; [reflexivity|].
  destruct x as [|c y]; [discriminate|].
  simpl in H; apply andb_true_iff in H as [Hy Hr].
  change (cat (String c y :: r)) with (String c y ++ cat r)%string.
  assert (E : cps (cat r) = r) by (apply IH, cps_wf_forallb, Hr).
  rewrite cps_cons_chunk, E; [reflexivity | exact Hy | rewrite E; exact Hr].
Qed.

Lemma cps_wf_cps s : cps_wf (cps s) = true.
Proof.
  induction s as [|c r IH]; [reflexivity|].
  rewrite cps_cons; destruct (cps r) as [|[|d z] xs]; [reflexivity | discriminate|].
  simpl in IH; apply andb_true_iff in IH as [Hz Hxs].
  destruct (is_cont d) eqn:Hd; simpl.
  - rewrite Hd, Hz, Hxs; reflexivity.
  - rewrite Hd, Hz, Hxs; reflexivity.
Qed.

Lemma cps_wf_prefix l1 l2 : cps_wf (l1 ++ l2) = true -> cps_wf l1 = true.
Proof.
  destruct l1 as [|[|c r] xs]; simpl; intros H; [reflexivity | discriminate|].
  apply andb_true_iff in H as [H1 H2]; rewrite forallb_app in H2.
  apply andb_true_iff in H2 as [H2 _]; rewrite H1, H2; reflexivity.
Qed.

Lemma cps_wf_suffix l1 l2 : cps_wf (l1 ++ l2) = true -> cps_wf l2 = true.
Proof.
  induction l1 as [|x r IH]; intros H; [exact H|].
  apply IH; destruct x as [|c y]; [discriminate|].
  simpl in H; apply andb_true_iff in H as [_ H]; apply cps_wf_forallb, H.
Qed.

Lemma cps_wf_firstn k l : cps_wf l = true -> cps_wf (firstn k l) = true.
Proof.
  intros H; rewrite <- (firstn_skipn k l) in H; exact (cps_wf_prefix _ _ H).
Qed.

Lemma drop_ws_suffix l : exists p, l = p ++ drop_ws l.
Proof.
  induction l as [|x r [p IH]]; simpl; [exists []; reflexivity|].
  destruct (is_ws_cp x); [exists (x :: p); simpl; rewrite <- IH | exists []]; reflexivity.
Qed.

Lemma drop_ws_length l : length (drop_ws l) <= length l.
Proof.
  induction l as [|x r IH]; simpl; [lia|]. destruct (is_ws_cp x); simpl; lia.
Qed.

Lemma drop_ws_idem l : drop_ws (drop_ws l) = drop_ws l.
Proof.
  induction l as [|x r IH]; simpl; [reflexivity|].
  destruct (is_ws_cp x) eqn:Hx; [exact IH | simpl; rewrite Hx; reflexivity].
Qed.

(** Starting with a code point that is not whitespace is kept by non-empty
    prefixes. *)
Lemma drop_ws_fix_prefix l1 l2 : drop_ws (l1 ++ l2) = l1 ++ l2 -> drop_ws l1 = l1.
Proof.
  destruct l1 as [|x r]; simpl; intros H; [reflexivity|].
  destruct (is_ws_cp x); [|reflexivity].
  exfalso; pose proof (drop_ws_length (r ++ l2)) as L; rewrite H in L; simpl in L; lia.
Qed.

Lemma rev_drop_ws_prefix l : exists q, l = rev (drop_ws (rev l)) ++ q.
Proof.
  destruct (drop_ws_suffix (rev l)) as [p Hp].
  exists (rev p); rewrite <- rev_app_distr, <- Hp, rev_involutive; reflexivity.
Qed.

Lemma space_cp_ok : cp_ok " " = true /\ is_ws_cp " " = true.
Proof. split; reflexivity. Qed.

Lemma collapse_cps_ok b l : forallb cp_ok l = true -> forallb cp_ok (collapse_cps b l) = true.
Proof.
  revert b; induction l as [|x r IH]; intros b H; [reflexivity|].
  simpl in H; apply andb_true_iff in H as [Hx Hr]; simpl.
  destruct (is_ws_cp x); [destruct b|]; simpl; rewrite ?IH, ?Hx by exact Hr; reflexivity.
Qed.

Lemma collapse_cps_wf b l : cps_wf l = true -> cps_wf (collapse_cps b l) = true.
Proof.
  destruct l as [|[|c y] r]; intros H; [reflexivity | discriminate|].
  simpl in H; apply andb_true_iff in H as [Hy Hr].
  simpl collapse_cps; destruct (is_ws_cp (String c y)); [destruct b|].
  - apply cps_wf_forallb, collapse_cps_ok, Hr.
  - simpl; apply collapse_cps_ok, Hr.
  - simpl; rewrite Hy; apply collapse_cps_ok, Hr.
Qed.

Lemma collapse_cps_length b l : length (collapse_cps b l) <= length l.
Proof.
  revert b; induction l as [|x r IH]; intros b; simpl; [lia|].
  destruct (is_ws_cp x); [destruct b|]; simpl;
    [specialize (IH true) | specialize (IH true) | specialize (IH false)]; lia.
Qed.

Lemma collapse_cps_idem b l : collapse_cps b (collapse_cps b l) = collapse_cps b l.
Proof.
  revert b; induction l as [|x r IH]; intros b; simpl; [reflexivity|].
  destruct (is_ws_cp x) eqn:Hx; [destruct b|]; simpl.
  - apply IH.
  - rewrite IH; reflexivity.
  - rewrite Hx, IH; reflexivity.
Qed.

(** Being left unchanged by [re.sub(r"\s+", " ", _)] is kept by prefixes. *)
Lemma collapse_fix_prefix b l1 l2 :
  collapse_cps b (l1 ++ l2) = l1 ++ l2 -> collapse_cps b l1 = l1.
Proof.
  revert b; induction l1 as [|x r IH]; intros b H; simpl in *; [reflexivity|].
  destruct (is_ws_cp x) eqn:Hx; [destruct b|].
  - exfalso; pose proof (collapse_cps_length true (r ++ l2)) as L.
    rewrite H in L; simpl in L; lia.
  - injection H as Hx' H; subst x; rewrite (IH true H); reflexivity.
  - injection H as H; rewrite (IH false H); reflexivity.
Qed.

Lemma collapse_fix_drop_ws b l :
  collapse_cps b l = l -> collapse_cps false (drop_ws l) = drop_ws l.
Proof.
  revert b; induction l as [|x r IH]; intros b H; simpl in *; [reflexivity|].
  destruct (is_ws_cp x) eqn:Hx; [destruct b|].
  - exfalso; pose proof (collapse_cps_length true r) as L.
    rewrite H in L; simpl in L; lia.
  - injection H as Hx' H; apply (IH true H).
  - simpl; rewrite Hx; injection H as H; rewrite H; reflexivity.
Qed.

Lemma py_take_cont n y s : all_cont y = true -> py_take n (y ++ s) = (y ++ py_take n s)%string.
Proof.
  induction y as [|c y IH]; intros H; [reflexivity|].
  simpl in H; apply andb_true_iff in H as [Hc H]; simpl; rewrite Hc, IH by exact H; reflexivity.
Qed.

(** [s[:n]] cuts a string at a code point boundary. *)
Lemma py_take_cat n l : cps_wf l = true -> exists k, py_take n (cat l) = cat (firstn k l).
Proof.
  revert n; induction l as [|x r IH]; intros n H; [exists 0; destruct n; reflexivity|].
  destruct x as [|c y]; [discriminate|].
  simpl in H; apply andb_true_iff in H as [Hy Hr]; apply cps_wf_forallb in Hr.
  change (cat (String c y :: r)) with (String c (y ++ cat r)).
  simpl py_take; destruct (is_cont c).
  - destruct (IH n Hr) as [k Hk]; exists (S k).
    rewrite py_take_cont, Hk by exact Hy; reflexivity.
  - destruct n as [|m]; [exists 0; reflexivity|].
    destruct (IH m Hr) as [k Hk]; exists (S k).
    rewrite py_take_cont, Hk by exact Hy; reflexivity.
Qed.

(** [_clean_html] returns at most 600 characters, in which every run of
    whitespace is already a single space and which does not start with
    whitespace: applying the whitespace collapsing or [lstrip] to the
    result changes nothing.  Whitespace is every code point for which
    [str.isspace] holds. *)
Theorem clean_html_normalised get_text raw :
  let out := clean_html get_text raw in
  py_len out <= 600 /\ collapse_ws out = out /\ lstrip out = out.
Proof.
  intros out; unfold out, clean_html; clear out.
  destruct (truthy raw); [|repeat split; simpl; lia].
  set (L := collapse_cps false (cps (get_text raw))).
  assert (W : cps_wf L = true) by apply collapse_cps_wf, cps_wf_cps.
  assert (F : collapse_cps false L = L) by apply collapse_cps_idem.
  unfold collapse_ws; fold L.
  set (L1 := drop_ws L).
  assert (W1 : cps_wf L1 = true)
    by (destruct (drop_ws_suffix L) as [p Hp]; apply (cps_wf_suffix p); unfold L1; rewrite <- Hp; exact W).
  assert (F1 : collapse_cps false L1 = L1) by (apply (collapse_fix_drop_ws false); exact F).
  assert (D1 : drop_ws L1 = L1) by apply drop_ws_idem.
  unfold strip, lstrip; rewrite cps_cat by exact W; fold L1.
  set (L2 := rev (drop_ws (rev L1))).
  destruct (rev_drop_ws_prefix L1) as [q Hq]; fold L2 in Hq.
  assert (W2 : cps_wf L2 = true) by (apply (cps_wf_prefix _ q); rewrite <- Hq; exact W1).
  assert (F2 : collapse_cps false L2 = L2)
    by (apply (collapse_fix_prefix false _ q); rewrite <- Hq; exact F1).
  assert (D2 : drop_ws L2 = L2) by (apply (drop_ws_fix_prefix _ q); rewrite <- Hq; exact D1).
  unfold rstrip; rewrite cps_cat by exact W1; fold L2.
  destruct (py_take_cat 600 L2 W2) as [k Hk]; rewrite Hk.
  assert (W3 : cps_wf (firstn k L2) = true) by (apply cps_wf_firstn, W2).
  split; [rewrite <- Hk, py_len_take; lia|].
  rewrite cps_cat by exact W3.
  split.
  - f_equal; apply (collapse_fix_prefix false _ (skipn k L2)); rewrite firstn_skipn; exact F2.
  - f_equal; apply (drop_ws_fix_prefix _ (skipn k L2)); rewrite firstn_skipn; exact D2.
Qed.

Lemma feed_loop_length_limit get_text now src max_age_days limit es items :
  length items < limit ->
  length (feed_loop get_text now src max_age_days limit es items) <= limit.
Proof.
  revert items; induction es as [|e es IH]; intros items H; simpl; [lia|].
  destruct (too_old now max_age_days e); [apply IH; exact H|].
  destruct (limit <=? length (items ++ [item_of_entry get_text src e])) eqn:E.
  - rewrite length_app; simpl; lia.
  - apply Nat.leb_gt in E; apply IH; exact E.
Qed.

Lemma feed_loop_length_entries get_text now src max_age_days limit es items :
  length (feed_loop get_text now src max_age_days limit es items) <= length items + length es.
Proof.
  revert items; induction es as [|e es IH]; intros items; simpl; [lia|].
  destruct (too_old now max_age_days e); [specialize (IH items); lia|].
  destruct (limit <=? length (items ++ [item_of_entry get_text src e]));
    [rewrite length_app; simpl; lia|].
  specialize (IH (items ++ [item_of_entry get_text src e])); rewrite length_app in IH; simpl in IH; lia.
Qed.

(** [_fetch_feed(url, max_age_days, limit)] returns at most [limit] items,
    and no more items than the parsed feed has entries; when parsing
    fails it returns no item. *)
Theorem fetch_feed_length get_text parse now u max_age_days limit :
  length (fetch_feed get_text parse now u max_age_days limit) <=
    Nat.min limit (match parse u with Some f => length (entries f) | None => 0 end).
Proof.
  unfold fetch_feed; destruct (parse u) as [f|]; simpl; [|lia].
  apply Nat.min_glb.
  - destruct limit as [|l]; [simpl; lia|].
    apply feed_loop_length_limit; simpl; lia.
  - eapply Nat.le_trans; [apply feed_loop_length_entries|].
    rewrite length_firstn; simpl; lia.
Qed.

Lemma arxiv_collect_inv label items seen all :
  NoDup (map url all) -> (forall x, In x all -> In (url x) seen) ->
  let r := arxiv_collect label items seen all in
  NoDup (map url (snd r)) /\ (forall x, In x (snd r) -> In (url x) (fst r)).
Proof.
  revert seen all; induction items as [|it items IH]; intros seen all Hnd Hin; simpl;
    [split; assumption|].
  destruct (existsb (String.eqb (url it)) seen) eqn:E; apply IH.
  - exact Hnd.
  - exact Hin.
  - rewrite map_app; apply NoDup_app; [exact Hnd | repeat constructor; intros [] |].
    intros k Hk [Hx|[]]; simpl in Hx; subst k.
    apply in_map_iff in Hk as [x [Hx Hxin]].
    assert (existsb (String.eqb (url it)) seen = true) as E'
      by (apply existsb_exists; exists (url x); split;
          [apply Hin, Hxin | apply String.eqb_eq; symmetry; exact Hx]).
    rewrite E' in E; discriminate.
  - intros x Hx; apply in_app_iff in Hx as [Hx|[Hx|[]]].
    + right; apply Hin, Hx.
    + subst x; left; reflexivity.
Qed.

Lemma arxiv_collect_sources label items seen all x :
  In x (snd (arxiv_collect label items seen all)) -> In x all \/ source x = label.
Proof.
  revert seen all; induction items as [|it items IH]; intros seen all Hx; simpl in Hx;
    [left; exact Hx|].
  destruct (existsb (String.eqb (url it)) seen); apply IH in Hx as [Hx|Hx]; auto.
  apply in_app_iff in Hx as [Hx|[Hx|[]]]; [left; exact Hx | subst x; right; reflexivity].
Qed.

(** [fetch_arxiv] returns at most 20 items, no two with the same URL (a
    paper listed in several arXiv categories is kept once), each labelled
    with the arXiv category feed it was first seen in. *)
Theorem fetch_arxiv_unique_urls get_text parse now max_age_days :
  let out := fetch_arxiv get_text parse now max_age_days in
  length out <= 20 /\ NoDup (map url out) /\
  Forall (fun it => In (source it) (map snd arxiv_feeds)) out.
Proof.
  intros out; unfold out, fetch_arxiv; clear out.
  set (F := fun acc (fl : string * string) =>
              arxiv_collect (snd fl) (fetch_feed get_text parse now (fst fl) max_age_days 15)
                            (fst acc) (snd acc)).
  assert (Hgen : forall fls (acc : list string * list item),
             NoDup (map url (snd acc)) -> (forall x, In x (snd acc) -> In (url x) (fst acc)) ->
             NoDup (map url (snd (fold_left F fls acc))) /\
             (forall x, In x (snd (fold_left F fls acc)) ->
                        In x (snd acc) \/ In (source x) (map snd fls))).
  { induction fls as [|fl fls IH]; intros acc Hnd Hin; simpl; [split; auto|].
    destruct (arxiv_collect_inv (snd fl) (fetch_feed get_text parse now (fst fl) max_age_days 15)
                (fst acc) (snd acc) Hnd Hin) as [Hnd' Hin'].
    destruct (IH (F acc fl) Hnd' Hin') as [H1 H2]; split; [exact H1|].
    intros x Hx; apply H2 in Hx as [Hx|Hx]; [|right; right; exact Hx].
    apply arxiv_collect_sources in Hx as [Hx|Hx]; [left; exact Hx | right; left; symmetry; exact Hx]. }
  destruct (Hgen arxiv_feeds ([], [])) as [Hnd Hsrc]; [constructor | intros x [] |].
  split; [rewrite length_firstn; lia|]; split.
  - rewrite <- (firstn_skipn 20 (snd (fold_left F arxiv_feeds ([], [])))) in Hnd.
    rewrite map_app in Hnd; apply NoDup_app_remove_r in Hnd; exact Hnd.
  - apply Forall_firstn, Forall_forall; intros x Hx.
    destruct (Hsrc x Hx) as [[]|H]; exact H.
Qed.

Lemma hn_story_url_truthy h u : hn_story_url h = Some u -> truthy u = true.
Proof.
  unfold hn_story_url; intros H.
  destruct (hit_url h) as [v|].
  - destruct (truthy v) eqn:E; [injection H as <-; exact E|].
    destruct (hit_object_id h); [injection H as <-; reflexivity | discriminate].
  - destruct (hit_object_id h); [injection H as <-; reflexivity | discriminate].
Qed.

Lemma hn_collect_inv hits seen results :
  NoDup (map url results) -> (forall x, In x results -> In (url x) seen) ->
  Forall (fun it => truthy (url it) = true /\ source it = "Hacker News"%string) results ->
  let r := hn_collect hits seen results in
  NoDup (map url (snd r)) /\ (forall x, In x (snd r) -> In (url x) (fst r)) /\
  Forall (fun it => truthy (url it) = true /\ source it = "Hacker News"%string) (snd r).
Proof.
  revert seen results; induction hits as [|h hits IH]; intros seen results Hnd Hin Hok; simpl;
    [auto|].
  destruct (hn_story_url h) as [u|] eqn:Hu; [|simpl; auto].
  destruct (existsb (String.eqb u) seen) eqn:E; [apply IH; assumption|].
  assert (Hstep : forall t,
            NoDup (map url (results ++ [hn_item h t u])) /\
            (forall x, In x (results ++ [hn_item h t u]) -> In (url x) (u :: seen)) /\
            Forall (fun it => truthy (url it) = true /\ source it = "Hacker News"%string)
                   (results ++ [hn_item h t u])).
  { intros t; split; [|split].
    - rewrite map_app; apply NoDup_app; [exact Hnd | repeat constructor; intros [] |].
      intros k Hk [Hx|[]]; simpl in Hx; subst k.
      apply in_map_iff in Hk as [x [Hx Hxin]].
      assert (existsb (String.eqb u) seen = true) as E'
        by (apply existsb_exists; exists (url x); split;
            [apply Hin, Hxin | apply String.eqb_eq; symmetry; exact Hx]).
      rewrite E' in E; discriminate.
    - intros x Hx; apply in_app_iff in Hx as [Hx|[Hx|[]]].
      + right; apply Hin, Hx.
      + subst x; left; reflexivity.
    - apply Forall_app; split; [exact Hok|].
      repeat constructor; simpl; [eapply hn_story_url_truthy; exact Hu]. }
  destruct (hit_title h) as [[t|]|].
  - destruct (Hstep t) as [A [B C]]; apply IH; assumption.
  - simpl; split; [exact Hnd|]; split; [intros x Hx; right; apply Hin, Hx | exact Hok].
  - destruct (Hstep EmptyString) as [A [B C]]; apply IH; assumption.
Qed.

(** [fetch_hackernews(max_age_days, limit)] returns at most [limit] stories,
    no two with the same URL, each with a non-empty URL (the story link, or
    the discussion page when the hit has none) and the source
    ["Hacker News"], whatever the searches answered or however many of them
    failed, and also when a hit without [objectID] or with a [null] title
    ends the loop over a keyword's hits. *)
Theorem fetch_hackernews_unique_urls search limit :
  let out := fetch_hackernews search limit in
  length out <= limit /\ NoDup (map url out) /\
  Forall (fun it => truthy (url it) = true /\ source it = "Hacker News"%string) out.
Proof.
  intros out; unfold out, fetch_hackernews; clear out.
  set (F := fun (acc : list string * list item) kw =>
              match search kw with
              | None => acc
              | Some hits => hn_collect hits (fst acc) (snd acc)
              end).
  assert (Hgen : forall kws (acc : list string * list item),
             NoDup (map url (snd acc)) -> (forall x, In x (snd acc) -> In (url x) (fst acc)) ->
             Forall (fun it => truthy (url it) = true /\ source it = "Hacker News"%string) (snd acc) ->
             NoDup (map url (snd (fold_left F kws acc))) /\
             Forall (fun it => truthy (url it) = true /\ source it = "Hacker News"%string) (snd (fold_left F kws acc))).
  { induction kws as [|kw kws IH]; intros acc Hnd Hin Hok; simpl; [auto|].
    apply IH; unfold F; destruct (search kw) as [hits|]; try assumption;
      apply hn_collect_inv; assumption. }
  destruct (Hgen (firstn 6 hn_keywords) ([], [])) as [Hnd Hok];
    [constructor | intros x [] | constructor |].
  split; [rewrite length_firstn; lia|]; split.
  - rewrite <- (firstn_skipn limit (snd (fold_left F (firstn 6 hn_keywords) ([], [])))) in Hnd.
    rewrite map_app in Hnd; apply NoDup_app_remove_r in Hnd; exact Hnd.
  - apply Forall_firstn; exact Hok.
Qed.

Section Lowered.

Variable lower : string -> string.

Lemma add_items_all_prefix st l :
  exists rest, all_items (add_items lower st l) = all_items st ++ rest /\ incl rest l.
Proof.
  revert st; induction l as [|x l IH]; intros st; simpl.
  { exists []; rewrite app_nil_r; split; [reflexivity | intros y []]. }
  destruct (_ && _).
  - destruct (IH (mk_agg (title_key lower x :: seen_titles st) (all_items st ++ [x]))) as [r [Hr Hi]].
    exists (x :: r); rewrite Hr; simpl; rewrite <- app_assoc; split; [reflexivity|].
    intros y [<-|Hy]; [left; reflexivity | right; apply Hi, Hy].
  - destruct (IH st) as [r [Hr Hi]]; exists r; split; [exact Hr|].
    intros y Hy; right; apply Hi, Hy.
Qed.

Lemma add_items_keep st l :
  NoDup (map (title_key lower) l) -> Forall (fun it => truthy (title_key lower it) = true) l ->
  (forall x, In x l -> ~ In (title_key lower x) (seen_titles st)) ->
  all_items (add_items lower st l) = all_items st ++ l.
Proof.
  revert st; induction l as [|x l IH]; intros st Hnd Ht Hnew; simpl; [rewrite app_nil_r; reflexivity|].
  inversion Hnd as [|? ? Hx Hnd']; subst; inversion Ht as [|? ? Htx Ht']; subst.
  rewrite Htx.
  assert (E : existsb (String.eqb (title_key lower x)) (seen_titles st) = false).
  { destruct (existsb _ _) eqn:E; [|reflexivity].
    apply existsb_exists in E as [k [Hk Hkeq]]; apply String.eqb_eq in Hkeq; subst k.
    exfalso; exact (Hnew x (or_introl eq_refl) Hk). }
  rewrite E; simpl; rewrite IH; try assumption.
  - simpl; rewrite <- app_assoc; reflexivity.
  - intros y Hy [Heq|Hin].
    + apply Hx; rewrite Heq; apply in_map; exact Hy.
    + exact (Hnew y (or_intror Hy) Hin).
Qed.

Lemma first_seen_truthy p d : Forall (fun it => truthy (title_key lower it) = true) (first_seen lower p d).
Proof.
  unfold first_seen; apply Forall_forall; intros it Hit.
  apply in_map_iff in Hit as [i [Hi Hin]]; subst it.
  apply filter_In in Hin as [_ Hf].
  unfold first_occurrence in Hf; apply andb_true_iff in Hf as [Ht _]; exact Ht.
Qed.

End Lowered.

(** Aggregating the output of [aggregate_news] again, as the result of a
    single fetcher, returns it unchanged: the output is already free of
    blank and duplicate titles. *)
Theorem aggregate_news_idempotent lower outs :
  aggregate_news_from lower [Fetched (aggregate_news_from lower outs)] = aggregate_news_from lower outs.
Proof.
  unfold aggregate_news_from at 1; rewrite (fold_step_fetcher lower); simpl; rewrite app_nil_r.
  rewrite (aggregate_news_from_first_seen lower outs blank_a).
  apply add_items_keep.
  - apply first_seen_keys_NoDup.
  - apply first_seen_truthy.
  - intros x _ [].
Qed.

(** Later fetchers only add items after those of earlier ones: the output
    for a list of fetchers is the output for any prefix of it followed by
    items that the remaining fetchers returned. *)
Theorem aggregate_news_compose lower outs more :
  exists rest, aggregate_news_from lower (outs ++ more) = aggregate_news_from lower outs ++ rest /\
               incl rest (fetched_items more).
Proof.
  unfold aggregate_news_from; rewrite fold_left_app, (fold_step_fetcher lower more).
  apply add_items_all_prefix.
Qed.

End FeedExtraProofs.

(** ** Summarizer: validation, fences, requests and errors *)

Module SummarizerExtraProofs.
Import Summarizer SummarizerProofs.
Local Open Scope string_scope.

Lemma dict_set_same d k v : dict_get d k = Some v -> dict_set d k v = d.
Proof.
  induction d as [|[k0 v0] d IH]; simpl; [discriminate|].
  destruct (String.eqb k k0) eqn:E; intros H.
  - injection H as ->; reflexivity.
  - rewrite IH by exact H; reflexivity.
Qed.

Lemma dict_mem_get d k : dict_mem d k = true <-> exists v, dict_get d k = Some v.
Proof.
  unfold dict_mem; destruct (dict_get d k); split.
  - intros _; eexists; reflexivity.
  - intros _; reflexivity.
  - intros H; discriminate.
  - intros [v Hv]; discriminate.
Qed.

Lemma setdefault_props k v s s' :
  setdefault k v s = Ok s' ->
  exists fs fs', s = JObj fs /\ s' = JObj fs' /\ dict_mem fs' k = true /\
    (forall k' w, dict_get fs k' = Some w -> dict_get fs' k' = Some w).
Proof.
  destruct s as [| | | | |fs]; simpl; try discriminate.
  intros H; injection H as <-; exists fs; eexists; split; [reflexivity|]; split; [reflexivity|].
  destruct (dict_mem fs k) eqn:Hm; split; auto.
  - apply dict_mem_get; rewrite dict_get_set, String.eqb_refl; eexists; reflexivity.
  - intros k' w Hw; rewrite dict_get_set.
    destruct (String.eqb k' k) eqn:E; [|exact Hw].
    apply String.eqb_eq in E; subst k'.
    unfold dict_mem in Hm; rewrite Hw in Hm; discriminate.
Qed.

Lemma setdefault_present k v fs : dict_mem fs k = true -> setdefault k v (JObj fs) = Ok (JObj fs).
Proof. intros H; simpl; rewrite H; reflexivity. Qed.

Lemma dict_mem_keep fs fs' k :
  (forall k' w, dict_get fs k' = Some w -> dict_get fs' k' = Some w) ->
  dict_mem fs k = true -> dict_mem fs' k = true.
Proof.
  intros H Hm; apply dict_mem_get in Hm as [w Hw]; apply dict_mem_get; exists w; apply H, Hw.
Qed.

(** What [default_story field] does to a story it accepts: the story is a
    dict, the result has the four keys, and present fields keep their
    values. *)
Lemma default_story_props field s s' :
  default_story field s = Ok s' ->
  exists fs fs', s = JObj fs /\ s' = JObj fs' /\
    dict_mem fs' "title" = true /\ dict_mem fs' "url" = true /\
    dict_mem fs' "source" = true /\ dict_mem fs' field = true /\
    (forall k w, dict_get fs k = Some w -> dict_get fs' k = Some w).
Proof.
  unfold default_story; intros H.
  destruct (setdefault "title" _ s) as [s1|e] eqn:H1; simpl in H; [|discriminate].
  destruct (setdefault "url" _ s1) as [s2|e] eqn:H2; simpl in H; [|discriminate].
  destruct (setdefault "source" _ s2) as [s3|e] eqn:H3; simpl in H; [|discriminate].
  apply setdefault_props in H1 as [f0 [f1 [-> [-> [M1 K1]]]]].
  apply setdefault_props in H2 as [f1' [f2 [E2 [-> [M2 K2]]]]]; injection E2 as <-.
  apply setdefault_props in H3 as [f2' [f3 [E3 [-> [M3 K3]]]]]; injection E3 as <-.
  apply setdefault_props in H as [f3' [f4 [E4 [-> [M4 K4]]]]]; injection E4 as <-.
  exists f0, f4; split; [reflexivity|]; split; [reflexivity|].
  split; [apply (dict_mem_keep _ _ _ K4), (dict_mem_keep _ _ _ K3), (dict_mem_keep _ _ _ K2), M1|].
  split; [apply (dict_mem_keep _ _ _ K4), (dict_mem_keep _ _ _ K3), M2|].
  split; [apply (dict_mem_keep _ _ _ K4), M3|].
  split; [exact M4|].
  intros k w Hw; apply K4, K3, K2, K1, Hw.
Qed.

Lemma default_story_idem field s s' : default_story field s = Ok s' -> default_story field s' = Ok s'.
Proof.
  intros H; apply default_story_props in H as [fs [fs' [_ [-> [M1 [M2 [M3 [M4 _]]]]]]]].
  unfold default_story; rewrite (setdefault_present _ _ _ M1); cbn [bind].
  rewrite (setdefault_present _ _ _ M2); cbn [bind].
  rewrite (setdefault_present _ _ _ M3); cbn [bind].
  apply setdefault_present, M4.
Qed.

Lemma map_r_idem {A} (f : A -> result A) l l' :
  (forall a b, f a = Ok b -> f b = Ok b) -> map_r f l = Ok l' -> map_r f l' = Ok l'.
Proof.
  intros Hf H; apply map_r_Forall2 in H; induction H as [|a b l l' Hab _ IH]; [reflexivity|].
  simpl; rewrite (Hf a b Hab); simpl; rewrite IH; reflexivity.
Qed.

Lemma default_cat_items_idem v v' : default_cat_items v = Ok v' -> default_cat_items v' = Ok v'.
Proof.
  destruct v as [| | |s|l|fs]; simpl; try discriminate.
  - destruct s; [intros H; injection H as <-; reflexivity | discriminate].
  - destruct (map_r (default_story "summary") l) as [l1|e] eqn:Hl; simpl; [|discriminate].
    intros H; injection H as <-; simpl.
    rewrite (map_r_idem _ l l1) by (try exact Hl; apply default_story_idem); reflexivity.
  - destruct fs; [intros H; injection H as <-; reflexivity | discriminate].
Qed.

Lemma ensure_categories_present c0 :
  (forall c, In c CATEGORIES -> dict_mem c0 c = true) -> ensure_categories c0 = c0.
Proof.
  unfold ensure_categories; generalize CATEGORIES as L.
  induction L as [|cat L IH]; intros H; simpl; [reflexivity|].
  rewrite (H cat (or_introl eq_refl)); apply IH; intros c Hc; apply H; right; exact Hc.
Qed.

Lemma map_r_Forall2_keys (l l' : list (string * json)) :
  Forall2 (fun a b => (v' <- default_cat_items (snd a) ;; Ok (fst a, v')) = Ok b) l l' ->
  map fst l' = map fst l.
Proof.
  intros H; induction H as [|[k v] [k' v'] l l' Hab _ IH]; simpl; [reflexivity|].
  simpl in Hab; destruct (default_cat_items v); simpl in Hab; [|discriminate].
  injection Hab as -> _; rewrite IH; reflexivity.
Qed.

Lemma dict_mem_keys d d' k : map fst d' = map fst d -> dict_mem d' k = dict_mem d k.
Proof.
  revert d'; induction d as [|[k0 v0] d IH]; intros [|[k1 v1] d'] H; simpl in *;
    try discriminate; [reflexivity|].
  injection H as -> H; unfold dict_mem; simpl.
  destruct (String.eqb k k0); [reflexivity|]; apply IH, H.
Qed.

(** Every key the validation step reads is found in its own output: the
    shape of a successful [_validate_result]. *)
Lemma validate_result_shape j out :
  validate_result j = Ok out ->
  exists fs fs2 tops' cats2,
    j = JObj fs /\
    out = JObj (dict_set (dict_set fs2 "top_stories" (JArr tops')) "categories" (JObj cats2)) /\
    dict_mem fs2 "executive_summary" = true /\
    (forall k, k <> "executive_summary" -> k <> "top_stories" -> dict_get fs2 k = dict_get fs k) /\
    (forall v, dict_get fs "executive_summary" = Some v -> dict_get fs2 "executive_summary" = Some v) /\
    (dict_mem fs "executive_summary" = false ->
       dict_get fs2 "executive_summary" = Some (JStr "No summary available.")) /\
    map_r (default_story "reason")
          (match dict_get fs "top_stories" with Some (JArr l) => l | _ => [] end) = Ok tops' /\
    map_r (fun kv => v' <- default_cat_items (snd kv) ;; Ok (fst kv, v'))
          (ensure_categories (input_categories fs)) = Ok cats2.
Proof.
  destruct j as [| | | | |fs]; simpl; try discriminate.
  set (fs1 := if dict_mem fs "executive_summary" then fs
              else dict_set fs "executive_summary" (JStr "No summary available.")).
  set (fs2 := match dict_get fs1 "top_stories" with
              | Some (JArr _) => fs1
              | _ => dict_set fs1 "top_stories" (JArr [])
              end).
  assert (G1 : forall k, k <> "executive_summary" -> dict_get fs1 k = dict_get fs k).
  { intros k Hk; unfold fs1; destruct (dict_mem fs "executive_summary"); [reflexivity|].
    rewrite dict_get_set; apply String.eqb_neq in Hk; rewrite Hk; reflexivity. }
  assert (G2 : forall k, k <> "top_stories" -> dict_get fs2 k = dict_get fs1 k).
  { intros k Hk; unfold fs2; destruct (dict_get fs1 "top_stories") as [[]|]; try reflexivity;
      rewrite dict_get_set; apply String.eqb_neq in Hk; rewrite Hk; reflexivity. }
  assert (Ecat : dict_get fs2 "categories" = dict_get fs "categories")
    by (rewrite G2, G1 by discriminate; reflexivity).
  assert (Etop : match dict_get fs2 "top_stories" with Some (JArr l) => l | _ => [] end =
                 match dict_get fs "top_stories" with Some (JArr l) => l | _ => [] end).
  { rewrite <- (G1 "top_stories") by discriminate.
    unfold fs2; destruct (dict_get fs1 "top_stories") as [[| | | |l|]|] eqn:Ht;
      rewrite ?dict_get_set, ?Ht; reflexivity. }
  assert (Eex : dict_get fs2 "executive_summary" = dict_get fs1 "executive_summary")
    by (apply G2; discriminate).
  rewrite Ecat, Etop; fold (input_categories fs).
  destruct (map_r (default_story "reason") _) as [tops'|e] eqn:Ht; simpl; [|discriminate].
  destruct (map_r _ (ensure_categories (input_categories fs))) as [cats2|e] eqn:Hc;
    simpl; [|discriminate].
  intros H; injection H as <-.
  exists fs, fs2, tops', cats2; split; [reflexivity|]; split; [reflexivity|].
  split; [|split; [|split; [|split; [|split; [exact Ht | exact Hc]]]]].
  - apply dict_mem_get; rewrite Eex; unfold fs1.
    destruct (dict_mem fs "executive_summary") eqn:Hm;
      [apply dict_mem_get, Hm | rewrite dict_get_set; eexists; reflexivity].
  - intros k H1 H2; rewrite G2, G1 by assumption; reflexivity.
  - intros v Hv; rewrite Eex; unfold fs1; unfold dict_mem; rewrite Hv; exact Hv.
  - intros Hm; rewrite Eex; unfold fs1; rewrite Hm, dict_get_set; reflexivity.
Qed.
Lemma validate_result_categories_mem j out :
  validate_result j = Ok out ->
  exists fs' cats, out = JObj fs' /\ dict_get fs' "categories" = Some (JObj cats) /\
    forall c, In c CATEGORIES -> dict_mem cats c = true.
Proof.
  intros H; apply validate_result_shape in H
    as [fs [fs2 [tops' [cats2 [_ [-> [_ [_ [_ [_ [_ Hc]]]]]]]]]]].
  eexists; exists cats2; split; [reflexivity|]; split; [rewrite dict_get_set; reflexivity|].
  intros c Hin; apply map_r_Forall2, map_r_Forall2_keys in Hc.
  rewrite (dict_mem_keys _ _ c Hc); unfold dict_mem.
  rewrite ensure_categories_get, in_categories_existsb by exact Hin.
  destruct (dict_get (input_categories fs) c); reflexivity.
Qed.

(** [_validate_result] is idempotent: running it again on a result it
    accepted (as a second call on the mutated dict would) changes
    nothing. *)
Theorem validate_result_idempotent j out :
  validate_result j = Ok out -> validate_result out = Ok out.
Proof.
  intros H.
  destruct (validate_result_categories_mem _ _ H) as [F [cats [EF [Ecats Hmem]]]].
  apply validate_result_shape in H
    as [fs [fs2 [tops' [cats2 [_ [Eout [Mex [_ [_ [_ [Ht Hc]]]]]]]]]]].
  rewrite Eout in EF; injection EF as EF.
  rewrite <- EF, dict_get_set in Ecats; simpl in Ecats; injection Ecats as <-.
  set (F' := dict_set (dict_set fs2 "top_stories" (JArr tops')) "categories" (JObj cats2)) in *.
  assert (A1 : dict_mem F' "executive_summary" = true).
  { unfold F', dict_mem; rewrite !dict_get_set; simpl; exact Mex. }
  assert (A2 : dict_get F' "top_stories" = Some (JArr tops'))
    by (unfold F'; rewrite !dict_get_set; reflexivity).
  assert (A3 : dict_get F' "categories" = Some (JObj cats2))
    by (unfold F'; rewrite !dict_get_set; reflexivity).
  assert (A5 : map_r (default_story "reason") tops' = Ok tops')
    by (apply (map_r_idem _ _ _ (default_story_idem "reason") Ht)).
  assert (A6 : map_r (fun kv => v' <- default_cat_items (snd kv) ;; Ok (fst kv, v')) cats2 = Ok cats2).
  { refine (map_r_idem _ _ _ _ Hc).
    intros [k v] b Hab; simpl in Hab |- *.
    destruct (default_cat_items v) as [v'|e] eqn:Hd; simpl in Hab; [|discriminate].
    injection Hab as <-; simpl; rewrite (default_cat_items_idem _ _ Hd); reflexivity. }
  assert (A7 : dict_set (dict_set F' "top_stories" (JArr tops')) "categories" (JObj cats2) = F')
    by (rewrite (dict_set_same _ _ _ A2), (dict_set_same _ _ _ A3); reflexivity).
  rewrite Eout; fold F'; unfold validate_result; cbv beta iota zeta.
  rewrite A1, A2, A3, (ensure_categories_present _ Hmem), A2, A5; cbn [bind].
  rewrite A6; cbn [bind]; rewrite A7; reflexivity.
Qed.

Lemma Forall2_in_r {A B} (R : A -> B -> Prop) l l' b :
  Forall2 R l l' -> In b l' -> exists a, In a l /\ R a b.
Proof.
  intros H; induction H as [|a b' l l' Hab _ IH]; intros Hin; [destruct Hin|].
  destruct Hin as [<-|Hin]; [exists a; split; [left|]; auto|].
  destruct (IH Hin) as [a' [Ha' Hr]]; exists a'; split; [right|]; auto.
Qed.

Lemma validate_result_story_fields_aux fs out :
  validate_result (JObj fs) = Ok out ->
  exists fs' tops cats,
    out = JObj fs' /\
    dict_get fs' "top_stories" = Some (JArr tops) /\
    dict_get fs' "categories" = Some (JObj cats) /\
    Forall (fun s => exists sfs, s = JObj sfs /\
              dict_mem sfs "title" = true /\ dict_mem sfs "url" = true /\
              dict_mem sfs "source" = true /\ dict_mem sfs "reason" = true) tops /\
    Forall2 (fun s s' => forall sfs, s = JObj sfs ->
               exists sfs', s' = JObj sfs' /\
                 forall k w, dict_get sfs k = Some w -> dict_get sfs' k = Some w)
            (match dict_get fs "top_stories" with Some (JArr l) => l | _ => [] end) tops /\
    (forall c v, In (c, v) cats ->
       v = JStr "" \/ v = JObj [] \/
       exists l, v = JArr l /\
         Forall (fun s => exists sfs, s = JObj sfs /\
                   dict_mem sfs "title" = true /\ dict_mem sfs "url" = true /\
                   dict_mem sfs "source" = true /\ dict_mem sfs "summary" = true) l).
Proof.
  intros H; apply validate_result_shape in H
    as [fs0 [fs2 [tops' [cats2 [E0 [-> [_ [_ [_ [_ [Ht Hc]]]]]]]]]]].
  injection E0 as <-.
  exists (dict_set (dict_set fs2 "top_stories" (JArr tops')) "categories" (JObj cats2)), tops', cats2.
  split; [reflexivity|]; split; [rewrite !dict_get_set; reflexivity|].
  split; [rewrite dict_get_set; reflexivity|].
  apply map_r_Forall2 in Ht; apply map_r_Forall2 in Hc.
  split; [|split].
  - apply Forall_forall; intros s' Hs'.
    destruct (Forall2_in_r _ _ _ _ Ht Hs') as [s [_ Hd]].
    apply default_story_props in Hd as [sfs [sfs' [_ [-> [M1 [M2 [M3 [M4 _]]]]]]]].
    exists sfs'; repeat split; assumption.
  - eapply Forall2_impl; [|exact Ht]; intros s s' Hd sfs Es.
    apply default_story_props in Hd as [sfs0 [sfs' [Es' [-> [_ [_ [_ [_ K]]]]]]]].
    rewrite Es in Es'; injection Es' as <-; exists sfs'; split; [reflexivity | exact K].
  - intros c v Hin.
    destruct (Forall2_in_r _ _ _ _ Hc Hin) as [[k v0] [_ Hd]]; simpl in Hd.
    destruct (default_cat_items v0) as [v1|e] eqn:Hv; simpl in Hd; [|discriminate].
    injection Hd as _ <-.
    destruct v0 as [| | |s0|l0|f0]; simpl in Hv; try discriminate.
    + destruct s0; [|discriminate]; injection Hv as <-; left; reflexivity.
    + destruct (map_r (default_story "summary") l0) as [l1|e] eqn:Hl; simpl in Hv; [|discriminate].
      injection Hv as <-; right; right; exists l1; split; [reflexivity|].
      apply map_r_Forall2 in Hl; apply Forall_forall; intros s' Hs'.
      destruct (Forall2_in_r _ _ _ _ Hl Hs') as [s [_ Hd]].
      apply default_story_props in Hd as [sfs [sfs' [_ [-> [M1 [M2 [M3 [M4 _]]]]]]]].
      exists sfs'; repeat split; assumption.
    + destruct f0; [|discriminate]; injection Hv as <-; right; left; reflexivity.
Qed.

(** After a successful [_validate_result] every top story is a dict with
    [title], [url], [source] and [reason] keys, and every category value is
    either a list of dicts with [title], [url], [source] and [summary] keys
    or an empty string or dict (iterating over nothing); fields a story
    already had keep their values. *)
Theorem validate_result_story_fields fs out :
  validate_result (JObj fs) = Ok out ->
  exists fs' tops cats,
    out = JObj fs' /\
    dict_get fs' "top_stories" = Some (JArr tops) /\
    dict_get fs' "categories" = Some (JObj cats) /\
    Forall (fun s => exists sfs, s = JObj sfs /\
              dict_mem sfs "title" = true /\ dict_mem sfs "url" = true /\
              dict_mem sfs "source" = true /\ dict_mem sfs "reason" = true) tops /\
    Forall2 (fun s s' => forall sfs, s = JObj sfs ->
               exists sfs', s' = JObj sfs' /\
                 forall k w, dict_get sfs k = Some w -> dict_get sfs' k = Some w)
            (match dict_get fs "top_stories" with Some (JArr l) => l | _ => [] end) tops /\
    (forall c v, In (c, v) cats ->
       v = JStr "" \/ v = JObj [] \/
       exists l, v = JArr l /\
         Forall (fun s => exists sfs, s = JObj sfs /\
                   dict_mem sfs "title" = true /\ dict_mem sfs "url" = true /\
                   dict_mem sfs "source" = true /\ dict_mem sfs "summary" = true) l).
Proof. apply validate_result_story_fields_aux. Qed.

(** A successful [_validate_result] keeps an existing [executive_summary]
    (and adds the placeholder ["No summary available."] when there is
    none) and leaves every key other than [executive_summary],
    [top_stories] and [categories] as the response had it. *)
Theorem validate_result_keeps_fields fs out :
  validate_result (JObj fs) = Ok out ->
  exists fs',
    out = JObj fs' /\
    (forall v, dict_get fs "executive_summary" = Some v ->
               dict_get fs' "executive_summary" = Some v) /\
    (dict_mem fs "executive_summary" = false ->
       dict_get fs' "executive_summary" = Some (JStr "No summary available.")) /\
    (forall k, k <> "executive_summary" -> k <> "top_stories" -> k <> "categories" ->
               dict_get fs' k = dict_get fs k).
Proof.
  intros H; apply validate_result_shape in H
    as [fs0 [fs2 [tops' [cats2 [E0 [-> [_ [Hk [Hex [Hnew _]]]]]]]]]].
  injection E0 as <-.
  eexists; split; [reflexivity|]; split; [|split].
  - intros v Hv; rewrite !dict_get_set; simpl; apply Hex, Hv.
  - intros Hm; rewrite !dict_get_set; simpl; apply Hnew, Hm.
  - intros k H1 H2 H3; rewrite !dict_get_set.
    rewrite (proj2 (String.eqb_neq _ _) H2), (proj2 (String.eqb_neq _ _) H3).
    apply Hk; assumption.
Qed.

Lemma contains_cons needle c r :
  Aggregator.contains needle (String c r) = prefix needle (String c r) || Aggregator.contains needle r.
Proof. reflexivity. Qed.

Lemma prefix_nil r : prefix "" r = true.
Proof. destruct r; reflexivity. Qed.

Lemma prefix_cons a s c r : prefix (String a s) (String c r) = if ascii_dec a c then prefix s r else false.
Proof. reflexivity. Qed.

Lemma no_backtick_cons c r :
  Aggregator.contains "`" (String c r) = false ->
  c <> "`"%char /\ Aggregator.contains "`" r = false.
Proof.
  rewrite contains_cons, prefix_cons; destruct (ascii_dec "`" c) as [E|E]; intros H;
    [rewrite prefix_nil in H; discriminate H|].
  split; [intros ->; apply E; reflexivity | exact H].
Qed.

Lemma prefix_app p x : prefix p (p ++ x) = true.
Proof.
  induction p as [|a p IH]; [apply prefix_nil|].
  change (String a p ++ x)%string with (String a (p ++ x)).
  rewrite prefix_cons; destruct (ascii_dec a a) as [_|E]; [exact IH | exfalso; apply E; reflexivity].
Qed.

Lemma before_first_cons sep c r :
  before_first sep (String c r) =
  if prefix sep (String c r) then EmptyString else String c (before_first sep r).
Proof. reflexivity. Qed.

Lemma before_first_fence x t :
  Aggregator.contains "`" x = false -> before_first fence (x ++ fence ++ t) = x.
Proof.
  induction x as [|c x IH]; intros H.
  - change ("" ++ fence ++ t)%string with (String "`" ("``" ++ t)).
    rewrite before_first_cons.
    change (String "`" ("``" ++ t)) with (fence ++ t)%string at 1.
    rewrite prefix_app; reflexivity.
  - apply no_backtick_cons in H as [Hc Hx].
    change (String c x ++ fence ++ t)%string with (String c (x ++ fence ++ t)).
    rewrite before_first_cons.
    unfold fence at 1; rewrite prefix_cons.
    destruct (ascii_dec "`" c) as [E|E]; [subst c; exfalso; apply Hc; reflexivity|].
    rewrite IH by exact Hx; reflexivity.
Qed.

Lemma contains_fence_no_backtick x :
  Aggregator.contains "`" x = false -> Aggregator.contains fence x = false.
Proof.
  induction x as [|c x IH]; intros H; [reflexivity|].
  apply no_backtick_cons in H as [Hc Hx].
  rewrite contains_cons; unfold fence at 1; rewrite prefix_cons.
  destruct (ascii_dec "`" c) as [E|E]; [subst c; exfalso; apply Hc; reflexivity|].
  apply IH, Hx.
Qed.

Lemma before_last_absent sep x : Aggregator.contains sep x = false -> before_last sep x = x.
Proof.
  induction x as [|c x IH]; intros H; [reflexivity|].
  simpl in H |- *; apply orb_false_iff in H as [Hp Hx].
  rewrite Hp; simpl; rewrite IH by exact Hx; reflexivity.
Qed.

Lemma substring_app_drop p x M : substring (String.length p) M (p ++ x) = substring 0 M x.
Proof. induction p as [|c p IH]; [reflexivity | exact IH]. Qed.

Lemma str_length_app a b : String.length (a ++ b) = String.length a + String.length b.
Proof. induction a as [|c a IH]; simpl; [reflexivity | rewrite IH; reflexivity]. Qed.

Lemma substring_all x M : String.length x <= M -> substring 0 M x = x.
Proof.
  revert M; induction x as [|c x IH]; intros [|M] H; simpl in *; try reflexivity; [lia|].
  rewrite IH by lia; reflexivity.
Qed.

(** Fence stripping inverts fencing: a response made of [```json], a body
    without backticks and a closing [```] (whatever follows) is reduced to
    the stripped body; without the [json] tag the same holds for a body not
    starting with [json]. *)
Theorem strip_fences_roundtrip body tail :
  Aggregator.contains "`" body = false ->
  strip_fences ("```json" ++ body ++ "```" ++ tail) = strip body /\
  (prefix "json" body = false -> strip_fences ("```" ++ body ++ "```" ++ tail) = strip body).
Proof.
  intros Hb; split; [|intros Hj]; unfold strip_fences.
  - change ("```json" ++ body ++ "```" ++ tail)%string with (fence ++ ("json" ++ body) ++ fence ++ tail)%string.
    rewrite prefix_app; cbv beta iota zeta.
    change 3 with (String.length fence).
    rewrite substring_app_drop, substring_all by (rewrite !str_length_app; lia).
    rewrite before_first_fence by (simpl; exact Hb).
    rewrite prefix_app; cbv beta iota zeta.
    change (S (String.length fence)) with (String.length "json").
    rewrite substring_app_drop, substring_all by (rewrite !str_length_app; lia).
    rewrite before_last_absent by (apply contains_fence_no_backtick, Hb); reflexivity.
  - change ("```" ++ body ++ "```" ++ tail)%string with (fence ++ body ++ fence ++ tail)%string.
    rewrite prefix_app; cbv beta iota zeta.
    change 3 with (String.length fence).
    rewrite substring_app_drop, substring_all by (rewrite !str_length_app; lia).
    rewrite before_first_fence by exact Hb.
    rewrite Hj; cbv beta iota zeta.
    rewrite before_last_absent by (apply contains_fence_no_backtick, Hb); reflexivity.
Qed.

(** [categorize_and_summarize] sends at most one request, and exactly one
    when there are items and a non-empty API key (the argument, else
    [ANTHROPIC_API_KEY]); that request carries the model, the number of
    items and the news text built from them. *)
Theorem categorize_and_summarize_requests json_loads api env_key api_key model items :
  let reqs := fst (categorize_and_summarize json_loads api env_key api_key model items) in
  length reqs <= 1 /\
  (forall r, In r reqs -> r = mk_request model (length items) (build_news_text items)) /\
  (reqs <> [] <-> items <> [] /\ exists k, or_str api_key env_key = Some k /\ truthy k = true).
Proof.
  intros reqs; unfold reqs, categorize_and_summarize; clear reqs.
  destruct items as [|it rest].
  - simpl; split; [lia|]; split; [intros _ []|]; split; [intros H; exfalso; apply H; reflexivity|].
    intros [H _]; exfalso; apply H; reflexivity.
  - destruct (or_str api_key env_key) as [k|] eqn:Hk.
    + destruct (truthy k) eqn:Ht.
      * destruct (api _) as [text| | |]; [destruct (json_loads _)| | |]; simpl.
        all: split; [lia|]; split; [intros r [<-|[]]; reflexivity|].
        all: split; [intros _; split; [discriminate | exists k; split; [reflexivity | exact Ht]]
                    | discriminate].
      * simpl; split; [lia|]; split; [intros _ []|]; split; [intros H; exfalso; apply H; reflexivity|].
        intros [_ [k' [E Ht']]]; injection E as <-; rewrite Ht in Ht'; discriminate.
    + simpl; split; [lia|]; split; [intros _ []|]; split; [intros H; exfalso; apply H; reflexivity|].
      intros [_ [k' [E _]]]; discriminate.
Qed.

Lemma default_story_raise field s e : default_story field s = Raise e -> e = AttributeError.
Proof.
  unfold default_story.
  destruct s as [| | | | |fs]; simpl; try (intros H; injection H as <-; reflexivity).
  intros H; discriminate H.
Qed.

Lemma map_r_raise {A B} (f : A -> result B) l e :
  map_r f l = Raise e -> exists a, In a l /\ f a = Raise e.
Proof.
  induction l as [|a l IH]; simpl; [discriminate|].
  destruct (f a) as [b|e'] eqn:Hf; simpl.
  - destruct (map_r f l) as [bs|e'] eqn:Hr; simpl; [discriminate|].
    intros H; injection H as ->; destruct (IH eq_refl) as [a' [Ha' Hf']].
    exists a'; split; [right|]; assumption.
  - intros H; injection H as ->; exists a; split; [left; reflexivity | exact Hf].
Qed.

Lemma validate_result_raise j e :
  validate_result j = Raise e -> e = TypeError \/ e = AttributeError.
Proof.
  destruct j as [| | | | |fs]; simpl; try (intros H; injection H as <-; left; reflexivity).
  destruct (map_r (default_story "reason") _) as [tops'|e'] eqn:Ht; simpl.
  - destruct (map_r (fun _ => _) _) as [cats2|e'] eqn:Hc; simpl; intros H; [discriminate H|].
    injection H as ->.
    apply map_r_raise in Hc as [[k v] [_ Hd]]; simpl in Hd.
    destruct (default_cat_items v) as [v'|e''] eqn:Hv; simpl in Hd; [discriminate|].
    injection Hd as ->.
    destruct v as [| | |s0|l0|f0]; simpl in Hv; try (injection Hv as <-; left; reflexivity).
    + destruct s0; [discriminate | injection Hv as <-; right; reflexivity].
    + destruct (map_r _ l0) as [l1|e3] eqn:Hl; simpl in Hv; [discriminate|].
      injection Hv as ->; apply map_r_raise in Hl as [s [_ Hs]].
      right; apply (default_story_raise _ _ _ Hs).
    + destruct f0; [discriminate | injection Hv as <-; right; reflexivity].
  - intros H; injection H as ->; apply map_r_raise in Ht as [s [_ Hs]].
    right; apply (default_story_raise _ _ _ Hs).
Qed.

(** The only exceptions [categorize_and_summarize] raises are: the missing
    key ([ValueError], before any request); an [APIError] of the request;
    an [IndexError] for an answer with no content block and an
    [AttributeError] for one whose first block has no text; an exception of
    [json.loads] other than [json.JSONDecodeError]; and a [TypeError] or
    [AttributeError] from validating a response that parsed as JSON but has
    the wrong shape.  A response that is not JSON never makes it raise. *)
Theorem categorize_and_summarize_errors json_loads api env_key api_key model items e :
  snd (categorize_and_summarize json_loads api env_key api_key model items) = Raise e ->
  let req := mk_request model (length items) (build_news_text items) in
  (e = ValueError "ANTHROPIC_API_KEY is not set." /\ items <> [] /\
   fst (categorize_and_summarize json_loads api env_key api_key model items) = [] /\
   forall k, or_str api_key env_key = Some k -> truthy k = false) \/
  (e = APIError /\ api req = ApiFailed) \/
  (e = IndexError /\ api req = ApiNoContent) \/
  (e = AttributeError /\ api req = ApiNoText) \/
  (exists text, api req = ApiText text /\
                json_loads (strip_fences (strip text)) = LoadRaised e) \/
  ((e = TypeError \/ e = AttributeError) /\
   exists text j, api req = ApiText text /\ json_loads (strip_fences (strip text)) = Loaded j /\
                  validate_result j = Raise e).
Proof.
  intros H req; unfold categorize_and_summarize in *; fold req.
  destruct items as [|it rest]; [discriminate|].
  fold req in H.
  destruct (or_str api_key env_key) as [k|] eqn:Hk.
  - destruct (truthy k) eqn:Ht.
    + destruct (api req) as [text| | |] eqn:Ha.
      * destruct (json_loads (strip_fences (strip text))) as [j| |e'] eqn:Hj; simpl in H.
        -- do 5 right; split; [eapply validate_result_raise; exact H|].
           exists text, j; repeat split; assumption.
        -- discriminate.
        -- injection H as E; subst e'; do 4 right; left; exists text; split; [reflexivity | exact Hj].
      * simpl in H; injection H as <-; do 2 right; left; split; reflexivity.
      * simpl in H; injection H as <-; do 3 right; left; split; reflexivity.
      * simpl in H; injection H as <-; right; left; split; reflexivity.
    + simpl in H; injection H as <-; left; split; [reflexivity|]; split; [discriminate|].
      split; [reflexivity|]; intros k' E; injection E as <-; exact Ht.
  - simpl in H; injection H as <-; left; split; [reflexivity|]; split; [discriminate|].
    split; [reflexivity|]; intros k' E; discriminate.
Qed.

(** Whatever happens, a Briefing that [categorize_and_summarize] returns has
    a [categories] dict containing all 7 fixed categories: the empty
    result, the fallback result and a validated response alike. *)
Theorem categorize_and_summarize_all_categories json_loads api env_key api_key model items out :
  snd (categorize_and_summarize json_loads api env_key api_key model items) = Ok out ->
  exists fs cats, out = JObj fs /\ dict_get fs "categories" = Some (JObj cats) /\
    forall c, In c CATEGORIES -> dict_mem cats c = true.
Proof.
  assert (Hbase : forall c, In c CATEGORIES -> dict_mem (map (fun c => (c, JArr [])) CATEGORIES) c = true).
  { intros c Hin; simpl in Hin.
    repeat (destruct Hin as [<-|Hin]; [reflexivity|]); destruct Hin. }
  unfold categorize_and_summarize.
  destruct items as [|it rest].
  - simpl; intros H; injection H as <-; do 2 eexists; split; [reflexivity|]; split; [reflexivity|].
    exact Hbase.
  - destruct (or_str api_key env_key) as [k|]; [destruct (truthy k)|]; simpl; try discriminate.
    destruct (api _) as [text| | |]; simpl; try discriminate.
    destruct (json_loads _) as [j| |e]; simpl; [apply validate_result_categories_mem| |discriminate].
    intros H; injection H as <-; do 2 eexists; split; [reflexivity|]; split; [reflexivity|].
    intros c Hin; apply dict_mem_get; rewrite dict_get_set.
    destruct (String.eqb c "Other AI & Tech News"); [eexists; reflexivity|].
    apply dict_mem_get, Hbase, Hin.
Qed.

(** [validate_result_idempotent], exercised on [sample_response]. *)
Lemma validate_result_idempotent_witness :
  exists out, validate_result (JObj sample_response) = Ok out /\
              validate_result out = Ok out.
Proof.
  eexists; split.
  - compute; reflexivity.
  - apply (validate_result_idempotent (JObj sample_response)); compute; reflexivity.
Defined.

(** [validate_result_story_fields], exercised on [sample_response]. *)
Lemma validate_result_story_fields_witness :
  exists out, validate_result (JObj sample_response) = Ok out /\
  exists fs' tops cats,
    out = JObj fs' /\
    dict_get fs' "top_stories" = Some (JArr tops) /\
    dict_get fs' "categories" = Some (JObj cats) /\
    Forall (fun s => exists sfs, s = JObj sfs /\
              dict_mem sfs "title" = true /\ dict_mem sfs "url" = true /\
              dict_mem sfs "source" = true /\ dict_mem sfs "reason" = true) tops /\
    Forall2 (fun s s' => forall sfs, s = JObj sfs ->
               exists sfs', s' = JObj sfs' /\
                 forall k w, dict_get sfs k = Some w -> dict_get sfs' k = Some w)
            (match dict_get sample_response "top_stories" with Some (JArr l) => l | _ => [] end) tops /\
    (forall c v, In (c, v) cats ->
       v = JStr "" \/ v = JObj [] \/
       exists l, v = JArr l /\
         Forall (fun s => exists sfs, s = JObj sfs /\
                   dict_mem sfs "title" = true /\ dict_mem sfs "url" = true /\
                   dict_mem sfs "source" = true /\ dict_mem sfs "summary" = true) l).
Proof.
  eexists; split.
  - compute; reflexivity.
  - apply validate_result_story_fields; compute; reflexivity.
Defined.

(** [validate_result_keeps_fields], exercised on [sample_response]. *)
Lemma validate_result_keeps_fields_witness :
  exists out, validate_result (JObj sample_response) = Ok out /\
  exists fs',
    out = JObj fs' /\
    (forall v, dict_get sample_response "executive_summary" = Some v ->
               dict_get fs' "executive_summary" = Some v) /\
    (dict_mem sample_response "executive_summary" = false ->
       dict_get fs' "executive_summary" = Some (JStr "No summary available.")) /\
    (forall k, k <> "executive_summary" -> k <> "top_stories" -> k <> "categories" ->
               dict_get fs' k = dict_get sample_response k).
Proof.
  eexists; split.
  - compute; reflexivity.
  - apply validate_result_keeps_fields; compute; reflexivity.
Defined.

(** [strip_fences_roundtrip], exercised on the body ["{}"] with a trailing
    newline after the closing fence. *)
Lemma strip_fences_roundtrip_witness :
  Aggregator.contains "`" " {} " = false /\ prefix "json" " {} " = false /\
  strip_fences ("```json" ++ " {} " ++ "```" ++ "
") = strip " {} " /\
  strip_fences ("```" ++ " {} " ++ "```" ++ "
") = strip " {} ".
Proof.
  assert (Hc : Aggregator.contains "`" " {} " = false) by reflexivity.
  assert (Hp : prefix "json" " {} " = false) by reflexivity.
  destruct (strip_fences_roundtrip " {} " "
" Hc) as [H1 H2].
  split; [exact Hc|]; split; [exact Hp|]; split; [exact H1 | exact (H2 Hp)].
Defined.

(** [categorize_and_summarize_errors], exercised with a failing request. *)
Lemma categorize_and_summarize_errors_witness :
  snd (categorize_and_summarize (fun _ => DecodeError) (fun _ => ApiNoContent) None (Some "sk-test")
         "claude" sample_items) = Raise IndexError /\
  let req := mk_request "claude" (length sample_items) (build_news_text sample_items) in
  (IndexError = ValueError "ANTHROPIC_API_KEY is not set." /\ sample_items <> [] /\
   fst (categorize_and_summarize (fun _ => DecodeError) (fun _ => ApiNoContent) None (Some "sk-test")
          "claude" sample_items) = [] /\
   forall k, or_str (Some "sk-test") None = Some k -> truthy k = false) \/
  (IndexError = APIError /\ (fun _ : request => ApiNoContent) req = ApiFailed) \/
  (IndexError = IndexError /\ (fun _ : request => ApiNoContent) req = ApiNoContent) \/
  (IndexError = AttributeError /\ (fun _ : request => ApiNoContent) req = ApiNoText) \/
  (exists text, (fun _ : request => ApiNoContent) req = ApiText text /\
                (fun _ : string => DecodeError) (strip_fences (strip text)) = LoadRaised IndexError) \/
  ((IndexError = TypeError \/ IndexError = AttributeError) /\
   exists text j, (fun _ : request => ApiNoContent) req = ApiText text /\
                  (fun _ : string => DecodeError) (strip_fences (strip text)) = Loaded j /\
                  validate_result j = Raise IndexError).
Proof.
  assert (H : snd (categorize_and_summarize (fun _ => DecodeError) (fun _ => ApiNoContent) None
                     (Some "sk-test") "claude" sample_items) = Raise IndexError)
    by reflexivity.
  split; [exact H|].
  exact (categorize_and_summarize_errors _ _ _ _ _ _ _ H).
Defined.

(** [categorize_and_summarize_all_categories], exercised on a reply that is
    not JSON, which gives the fallback result. *)
Lemma categorize_and_summarize_all_categories_witness :
  exists out,
    snd (categorize_and_summarize (fun _ => DecodeError) (fun _ => ApiText "not json") None
           (Some "sk-test") "claude" sample_items) = Ok out /\
    exists fs cats, out = JObj fs /\ dict_get fs "categories" = Some (JObj cats) /\
      forall c, In c CATEGORIES -> dict_mem cats c = true.
Proof.
  eexists; split.
  - reflexivity.
  - apply (categorize_and_summarize_all_categories (fun _ => DecodeError) (fun _ => ApiText "not json")
             None (Some "sk-test") "claude" sample_items); reflexivity.
Defined.

End SummarizerExtraProofs.

Module DeliveryExtraProofs.
Import Delivery.

Lemma send_attempts_shape world m f :
  forall a last, 1 <= f -> a + f = S m ->
  exists c, a <= c <= m /\
    (forall j, a <= j < c -> exists id, world j = SmtpFail id) /\
    (c < m -> forall id, world c <> SmtpFail id) /\
    send_attempts world m a f last =
      (flat_map (fun j => [EvConnect j; EvSleep (2 ^ j)]) (seq a (c - a)) ++
         EvConnect c :: (match world c with SendOk => [EvSent c] | _ => [] end),
       match world c with
       | SendOk => None
       | SmtpAuthFail => Some AuthError
       | SocketFail => Some SocketError
       | SmtpFail id => Some (TransportError id)
       end).
Proof.
  induction f as [|f IH]; intros a last Hf Hm; [lia|].
  simpl; destruct (world a) as [| |id|] eqn:Hw.
  - exists a; rewrite Hw, Nat.sub_diag; split; [lia|]; split; [intros j Hj; lia|].
    split; [intros _ id E; discriminate E | reflexivity].
  - exists a; rewrite Hw, Nat.sub_diag; split; [lia|]; split; [intros j Hj; lia|].
    split; [intros _ id E; discriminate E | reflexivity].
  - destruct f as [|f'].
    + assert (Ha : a = m) by lia; subst a.
      exists m; rewrite Hw, Nat.sub_diag, Nat.ltb_irrefl; split; [lia|]; split; [intros j Hj; lia|].
      split; [lia | reflexivity].
    + destruct (IH (S a) (Some (TransportError id)) ltac:(lia) ltac:(lia))
        as [c [Hc [Hbefore [Hlast Heq]]]].
      assert (Hlt : (a <? m) = true) by (apply Nat.ltb_lt; lia).
      exists c; split; [lia|]; split.
      * intros j Hj; destruct (Nat.eq_dec j a) as [->|Hne]; [exists id; exact Hw|].
        apply Hbefore; lia.
      * split; [exact Hlast|].
        rewrite Heq, Hlt; simpl.
        replace (c - a) with (S (c - S a)) by lia; reflexivity.
  - exists a; rewrite Hw, Nat.sub_diag; split; [lia|]; split; [intros j Hj; lia|].
    split; [intros _ id E; discriminate E | reflexivity].
Qed.

(** The SMTP loop of [send_briefing], for any [max_retries]: with
    [max_retries <= 0] it opens no connection and returns without error.
    Otherwise it stops at some attempt [c] between 1 and [max_retries]:
    every attempt before [c] failed with an [SMTPException] that is not an
    authentication error and was followed by a sleep of [2^j] seconds;
    attempt [c] is the last one made, it is followed by no sleep, it ends
    the loop early only by succeeding or by an error that is not retried,
    and its outcome decides the result: one [sendmail] and no error, the
    authentication or connection error, or its [SMTPException]. *)
Theorem send_with_retry_outcome world max_retries :
  (max_retries = 0 -> send_with_retry world max_retries = ([], None)) /\
  (1 <= max_retries ->
   exists c, 1 <= c <= max_retries /\
     (forall j, 1 <= j < c -> exists id, world j = SmtpFail id) /\
     (c < max_retries -> forall id, world c <> SmtpFail id) /\
     send_with_retry world max_retries =
       (flat_map (fun j => [EvConnect j; EvSleep (2 ^ j)]) (seq 1 (c - 1)) ++
          EvConnect c :: (match world c with SendOk => [EvSent c] | _ => [] end),
        match world c with
        | SendOk => None
        | SmtpAuthFail => Some AuthError
        | SocketFail => Some SocketError
        | SmtpFail id => Some (TransportError id)
        end)).
Proof.
  split.
  - intros ->; reflexivity.
  - intros Hm; unfold send_with_retry.
    apply send_attempts_shape; lia.
Qed.

(** [send_with_retry_outcome], exercised with 5 attempts that all fail
    transiently but the fourth, which rejects the credentials. *)
Lemma send_with_retry_outcome_witness :
  1 <= 5 /\
  exists c, 1 <= c <= 5 /\
     (forall j, 1 <= j < c -> exists id,
        (fun n => if n =? 4 then SmtpAuthFail else SmtpFail n) j = SmtpFail id) /\
     (c < 5 -> forall id, (fun n => if n =? 4 then SmtpAuthFail else SmtpFail n) c <> SmtpFail id) /\
     send_with_retry (fun n => if n =? 4 then SmtpAuthFail else SmtpFail n) 5 =
       (flat_map (fun j => [EvConnect j; EvSleep (2 ^ j)]) (seq 1 (c - 1)) ++
          EvConnect c :: (match (fun n => if n =? 4 then SmtpAuthFail else SmtpFail n) c with
                          | SendOk => [EvSent c] | _ => [] end),
        match (fun n => if n =? 4 then SmtpAuthFail else SmtpFail n) c with
        | SendOk => None
        | SmtpAuthFail => Some AuthError
        | SocketFail => Some SocketError
        | SmtpFail id => Some (TransportError id)
        end).
Proof.
  split; [lia|].
  apply (proj2 (send_with_retry_outcome (fun n => if n =? 4 then SmtpAuthFail else SmtpFail n) 5)).
  lia.
Defined.

End DeliveryExtraProofs.

Module MainExtraProofs.
Import Main.





End MainExtraProofs.

Module RendererExtraProofs.
Import Renderer.

Lemma nodup_length_le {A} (d : forall x y : A, {x = y} + {x <> y}) (l : list A) :
  length (nodup d l) <= length l.
Proof.
  induction l as [|x l IH]; simpl; [lia|].
  destruct (in_dec d x l); simpl; lia.
Qed.

Lemma nodup_nil_iff {A} (d : forall x y : A, {x = y} + {x <> y}) (l : list A) :
  nodup d l = [] <-> l = [].
Proof.
  split; [|intros ->; reflexivity].
  destruct l as [|x l]; [reflexivity|]; intros H.
  assert (Hx : In x (nodup d (x :: l))) by (apply nodup_In; left; reflexivity).
  rewrite H in Hx; destruct Hx.
Qed.

Lemma non_empty_cats_le_stories (cats : list (string * list story)) :
  length (filter (fun kv => match snd kv with [] => false | _ => true end) cats) <=
  length (flat_map snd cats).
Proof.
  induction cats as [|[k v] cats IH]; simpl; [lia|].
  rewrite length_app; destruct v; simpl; lia.
Qed.

Lemma non_empty_cats_nil_iff (cats : list (string * list story)) :
  filter (fun kv => match snd kv with [] => false | _ => true end) cats = [] <->
  flat_map snd cats = [].
Proof.
  induction cats as [|[k v] cats IH]; simpl; [tauto|].
  destruct v as [|s v]; simpl; [exact IH|].
  split; intros H; discriminate H.
Qed.

(** The stats box of the PDF cover and of both email bodies: the number of
    sources never exceeds the number of stories, nor does the number of
    categories shown, which never exceeds the number of categories either;
    a briefing without stories shows 0 sources and 0 categories, and one
    with a story shows at least one of each. *)
Theorem briefing_stats_bounds b :
  match briefing_stats b with
  | (total, n_sources, n_cats) =>
      n_sources <= total /\ n_cats <= total /\ n_cats <= length (categories b) /\
      (total = 0 <-> n_sources = 0) /\ (total = 0 <-> n_cats = 0)
  end.
Proof.
  unfold briefing_stats, source_set, all_stories, non_empty_cats.
  split; [rewrite (nodup_length_le string_dec _), length_map; lia|].
  split; [apply non_empty_cats_le_stories|].
  split; [apply filter_length_le|].
  split.
  - rewrite !length_zero_iff_nil, nodup_nil_iff.
    split; [intros ->; reflexivity|].
    intros H; apply map_eq_nil in H; exact H.
  - rewrite !length_zero_iff_nil, non_empty_cats_nil_iff; tauto.
Qed.

Lemma toc_categories_shape cats : forall page_num,
  map (fun e => snd (fst e)) (fst (toc_categories page_num cats)) = map fst cats /\
  map snd (fst (toc_categories page_num cats)) =
    map (fun i => ("p. " ++ Summarizer.nat_str i)%string) (seq page_num (length cats)) /\
  map (fun e => fst (fst e)) (fst (toc_categories page_num cats)) =
    map (fun i => pad02 (Summarizer.nat_str i)) (seq page_num (length cats)) /\
  snd (toc_categories page_num cats) = page_num + length cats.
Proof.
  induction cats as [|[name v] cats IH]; intros page_num; simpl; [repeat split; lia|].
  destruct (IH (S page_num)) as [H1 [H2 [H3 H4]]].
  destruct (toc_categories (S page_num) cats) as [rest p]; simpl in *.
  rewrite H1, H2, H3, H4; repeat split; lia.
Qed.

(** The table of contents of [generate_pdf]: the executive summary and the
    top stories on page 3, then one row per non-empty category in order,
    numbered and paged consecutively from 4, then "Sources & Methodology"
    on the next page, [4 + len(non_empty_cats)]; empty categories get no
    row. *)
Theorem toc_items_pages b :
  let n := length (non_empty_cats b) in
  map (fun e => snd (fst e)) (toc_items b) =
    ["Executive Summary"; "Top 5 Stories"]%string ++ map fst (non_empty_cats b) ++
    ["Sources & Methodology"%string] /\
  map snd (toc_items b) =
    ["p. 3"; "p. 3"]%string ++ map (fun i => ("p. " ++ Summarizer.nat_str i)%string) (seq 4 (S n)) /\
  map (fun e => fst (fst e)) (toc_items b) =
    ["01"; "02"]%string ++ map (fun i => pad02 (Summarizer.nat_str i)) (seq 4 (S n)).
Proof.
  intros n; unfold toc_items.
  destruct (toc_categories_shape (non_empty_cats b) 4) as [H1 [H2 [H3 H4]]].
  destruct (toc_categories 4 (non_empty_cats b)) as [cat_items page_num].
  cbn [fst snd] in H1, H2, H3, H4; subst page_num; fold n in H2, H3 |- *.
  rewrite seq_S, !map_app, H1, H2, H3.
  repeat split; simpl; rewrite <- ?app_assoc; reflexivity.
Qed.

End RendererExtraProofs.

Module SummarizerFallbackProofs.
Import Summarizer.
Local Open Scope string_scope.

Lemma map_r_id {A} (f : A -> result A) l : (forall x, In x l -> f x = Ok x) -> map_r f l = Ok l.
Proof.
  induction l as [|x l IH]; intros H; [reflexivity|]; simpl.
  rewrite (H x (or_introl eq_refl)); cbn [bind].
  rewrite IH by (intros y Hy; apply H; right; exact Hy); reflexivity.
Qed.

(** The two results [categorize_and_summarize] builds itself, the fallback
    for a reply that is not JSON and the result for no items, already have
    the shape [_validate_result] enforces: validating them changes
    nothing and raises nothing. *)
Theorem built_results_validated items :
  validate_result (fallback_result items) = Ok (fallback_result items) /\
  validate_result empty_result = Ok empty_result.
Proof.
  split; [|reflexivity].
  assert (HX : map_r (default_story "summary") (map category_story (firstn 40 items)) =
               Ok (map category_story (firstn 40 items)))
    by (apply map_r_id; intros x Hx; apply in_map_iff in Hx as [it [<- _]]; reflexivity).
  assert (HY : map_r (default_story "reason") (map top_story (firstn 5 items)) =
               Ok (map top_story (firstn 5 items)))
    by (apply map_r_id; intros x Hx; apply in_map_iff in Hx as [it [<- _]]; reflexivity).
  unfold fallback_result; cbv zeta.
  revert HX HY.
  generalize (map category_story (firstn 40 items)) as X.
  generalize (map top_story (firstn 5 items)) as T.
  intros T X HX HY.
  unfold validate_result; cbn.
  rewrite HY; cbn; rewrite HX; cbn; reflexivity.
Qed.

End SummarizerFallbackProofs.

Module PlainTextProofs.
Import Delivery.

Lemma top_story_lines_length i tops :
  length (top_story_lines i tops) = 4 * length tops.
Proof.
  revert i; induction tops as [|st tops IH]; intros i; simpl; [reflexivity|].
  rewrite IH; lia.
Qed.

Lemma top_story_lines_nth i tops : forall k st,
  nth_error tops k = Some st ->
  nth_error (top_story_lines i tops) (4 * k) =
    Some (Summarizer.nat_str (i + k) ++ ". " ++ Renderer.story_get st "title" "" ++
          " [" ++ Renderer.story_get st "source" "" ++ "]")%string /\
  nth_error (top_story_lines i tops) (4 * k + 1) =
    Some ("   " ++ Renderer.story_get st "url" "")%string /\
  nth_error (top_story_lines i tops) (4 * k + 2) =
    Some ("   " ++ Renderer.story_get st "reason" "")%string.
Proof.
  revert i; induction tops as [|st0 tops IH]; intros i [|k] st H; simpl in H; try discriminate H.
  - injection H as <-; rewrite Nat.add_0_r; repeat split.
  - destruct (IH (S i) k st H) as [H1 [H2 H3]].
    replace (4 * S k) with (4 + 4 * k) by lia.
    replace (4 + 4 * k + 1) with (4 + (4 * k + 1)) by lia.
    replace (4 + 4 * k + 2) with (4 + (4 * k + 2)) by lia.
    replace (i + S k) with (S i + k) by lia.
    simpl; repeat split; assumption.
Qed.

Lemma category_story_lines_length l :
  length (flat_map category_story_lines l) = 4 * length l.
Proof.
  induction l as [|st l IH]; [reflexivity|].
  cbn [flat_map]; rewrite length_app, IH; simpl; lia.
Qed.

Lemma category_lines_length upper cats :
  length (flat_map (category_lines upper) cats) =
  3 * length (filter (fun kv => match snd kv with [] => false | _ => true end) cats) +
  4 * length (flat_map snd cats).
Proof.
  induction cats as [|[c v] cats IH]; [reflexivity|].
  cbn [flat_map filter snd]; rewrite !length_app, IH.
  destruct v as [|st v]; [simpl; lia|].
  unfold category_lines; cbn [snd]; rewrite length_app, category_story_lines_length.
  simpl; lia.
Qed.

(** The plain-text body of the email has 10 header lines, 4 lines per top
    story, and for each category with stories a 3-line heading and 4 lines
    per story; a category without stories adds nothing.  Top story number
    [k+1] (counting from 1, in the order of [top_stories]) starts at line
    [10 + 4k] with its number, title and source, followed by its URL and
    its reason, each indented by three spaces. *)
Theorem plain_text_layout upper generated exec_summary b :
  let lines := plain_text_lines upper generated exec_summary b in
  length lines =
    10 + 4 * length (Renderer.top_stories b) +
    3 * length (Renderer.non_empty_cats b) + 4 * length (Renderer.all_stories b) /\
  (forall k st, nth_error (Renderer.top_stories b) k = Some st ->
     nth_error lines (10 + 4 * k) =
       Some (Summarizer.nat_str (S k) ++ ". " ++ Renderer.story_get st "title" "" ++
             " [" ++ Renderer.story_get st "source" "" ++ "]")%string /\
     nth_error lines (10 + (4 * k + 1)) =
       Some ("   " ++ Renderer.story_get st "url" "")%string /\
     nth_error lines (10 + (4 * k + 2)) =
       Some ("   " ++ Renderer.story_get st "reason" "")%string).
Proof.
  intros lines; split.
  - unfold lines, plain_text_lines.
    rewrite !length_app, top_story_lines_length, category_lines_length; simpl.
    unfold Renderer.non_empty_cats, Renderer.all_stories; lia.
  - intros k st H.
    destruct (top_story_lines_nth 1 _ k st H) as [H1 [H2 H3]].
    assert (Hlen : forall j, j < 4 -> 4 * k + j < length (top_story_lines 1 (Renderer.top_stories b))).
    { intros j Hj; rewrite top_story_lines_length.
      assert (k < length (Renderer.top_stories b)) by (apply nth_error_Some; rewrite H; discriminate).
      lia. }
    assert (Hh : forall (l r : list string) n, nth_error (l ++ r) (length l + n) = nth_error r n)
      by (induction l as [|x l IHl]; intros r n; [reflexivity | exact (IHl r n)]).
    unfold lines, plain_text_lines.
    split; [|split].
    + refine (eq_trans (Hh _ _ (4 * k)) _).
      rewrite nth_error_app1 by (rewrite <- (Nat.add_0_r (4 * k)); apply Hlen; lia).
      exact H1.
    + refine (eq_trans (Hh _ _ (4 * k + 1)) _).
      rewrite nth_error_app1 by (apply Hlen; lia).
      exact H2.
    + refine (eq_trans (Hh _ _ (4 * k + 2)) _).
      rewrite nth_error_app1 by (apply Hlen; lia).
      exact H3.
Qed.

End PlainTextProofs.

Module SummarizerPromptProofs.
Import Summarizer.

(** The news text of the prompt lists only the first 60 items: once there
    are 60, items added after them change nothing in the text, although the
    prompt's item count [len(items)] still counts them. *)
Theorem build_news_text_first_60 model items rest :
  60 <= length items ->
  build_news_text (items ++ rest) = build_news_text items /\
  mk_request model (length (items ++ rest)) (build_news_text (items ++ rest)) =
    mk_request model (length items + length rest) (build_news_text items).
Proof.
  intros H; unfold build_news_text.
  rewrite firstn_app, (proj2 (Nat.sub_0_le _ _) H), firstn_O, app_nil_r.
  split; [reflexivity|].
  rewrite length_app; reflexivity.
Qed.

(** [build_news_text_first_60], exercised on 60 copies of a sample item
    followed by one more. *)
Lemma build_news_text_first_60_witness :
  60 <= length (repeat (hd Aggregator.blank_a sample_items) 60) /\
  build_news_text (repeat (hd Aggregator.blank_a sample_items) 60 ++ [Aggregator.blank_a]) =
    build_news_text (repeat (hd Aggregator.blank_a sample_items) 60) /\
  mk_request "claude" (length (repeat (hd Aggregator.blank_a sample_items) 60 ++ [Aggregator.blank_a]))
    (build_news_text (repeat (hd Aggregator.blank_a sample_items) 60 ++ [Aggregator.blank_a])) =
  mk_request "claude" (length (repeat (hd Aggregator.blank_a sample_items) 60) + length [Aggregator.blank_a])
    (build_news_text (repeat (hd Aggregator.blank_a sample_items) 60)).
Proof.
  assert (H : 60 <= length (repeat (hd Aggregator.blank_a sample_items) 60))
    by (rewrite repeat_length; lia).
  split; [exact H|].
  exact (build_news_text_first_60 "claude" _ [Aggregator.blank_a] H).
Defined.

End SummarizerPromptProofs.
